(** * folder-snap: a shallow embedding of the archive/restore engine

    The development follows the TypeScript sources of the repository:

    - the v3 unit of [src/index.ts]: class [FolderSnap] with the writer
      [folderToText] that keeps file contents in sidecar files next to a
      JSON manifest, the readers [textToFolder], [unpackV3Snap] and
      [unpackLegacySnap], [getFolderStats] and [validateSnapFile];
    - the v2 unit: one JSON document with embedded contents, utf8 or base64;
    - the legacy unit of [src/index.ts]: the writer whose JSON document stands
      between two sentinel lines.

    Conventions of the model.

    - A [Buffer] is a [list byte].  A JavaScript string is a Rocq [string]
      holding the UTF-8 form of its text, so that [Buffer.from(s, 'utf8')] is
      the identity on the representation and [buffer.toString('utf8')] is the
      decoder of the WHATWG Encoding Standard, which puts U+FFFD in the place
      of every ill-formed sequence.  Indices into strings count bytes.
    - A JavaScript object is a list of properties in insertion order; the
      values are those of JSON, [undefined] is [None].
    - The file system is a tree whose directories keep their entries in
      listing order: [fs.readdirSync] returns them as they are, a new entry
      goes to the end.  There are files and directories, no links, no
      permissions.
    - Methods live in a state-and-exception monad: the state holds the file
      system and the fields of the instance, an exception is a [throw].
    - The pattern engine of package [ignore] and the clock are parameters.
    - Console output, [formatBytes], [upgradeLegacySnap] and the command line
      are left out.

    The file has three parts: the model, the vocabulary of the statements
    with sample data, and the lemmas and theorems. *)

From Stdlib Require Import List String Ascii NArith ZArith Lia Bool Arith.
From Stdlib.Strings Require Import Byte.
From Stdlib Require Import DecimalString Decimal.
Import ListNotations.

Set Warnings "-register-all".
Local Open Scope list_scope.

(* ================================================================== *)
(** * Buffers and the utf8 codec of Node *)

Definition Buffer := list byte.

Module Utf8.

Definition code (b : byte) : N := Byte.to_N b.

Definition in_range (lo hi : N) (b : byte) : bool :=
  ((lo <=? code b) && (code b <=? hi))%N.

(** U+FFFD REPLACEMENT CHARACTER, as UTF-8. *)
Definition replacement : list byte := [xef; xbf; xbd].

(** First-byte table of well-formed UTF-8 (Unicode 3.9, table 3-7): the number
    of continuation bytes still needed and the bounds of the next byte. *)
Inductive lead : Type :=
| Single
| Lead (needed : nat) (lo hi : N)
| Invalid.

Definition classify (b : byte) : lead :=
  if in_range 0x00 0x7F b then Single
  else if in_range 0xC2 0xDF b then Lead 1 0x80 0xBF
  else if in_range 0xE0 0xE0 b then Lead 2 0xA0 0xBF
  else if in_range 0xED 0xED b then Lead 2 0x80 0x9F
  else if in_range 0xE1 0xEF b then Lead 2 0x80 0xBF
  else if in_range 0xF0 0xF0 b then Lead 3 0x90 0xBF
  else if in_range 0xF4 0xF4 b then Lead 3 0x80 0x8F
  else if in_range 0xF1 0xF3 b then Lead 3 0x80 0xBF
  else Invalid.

Inductive dstate : Type :=
| Idle
| Pending (seen : list byte) (needed : nat) (lo hi : N).

Definition start (b : byte) : list byte * dstate :=
  match classify b with
  | Single => ([b], Idle)
  | Lead n lo hi => ([], Pending [b] n lo hi)
  | Invalid => (replacement, Idle)
  end.

(** One step of the decoder.  A byte that cannot continue the pending
    sequence ends it with U+FFFD and is itself decoded again from the idle
    state. *)
Definition step (st : dstate) (b : byte) : list byte * dstate :=
  match st with
  | Idle => start b
  | Pending seen n lo hi =>
      if in_range lo hi b then
        match n with
        | S (S m) => ([], Pending (seen ++ [b]) (S m) 0x80 0xBF)
        | _ => (seen ++ [b], Idle)
        end
      else let (out, st') := start b in (replacement ++ out, st')
  end.

Fixpoint decode (st : dstate) (input : list byte) : list byte :=
  match input with
  | [] => match st with Idle => [] | Pending _ _ _ _ => replacement end
  | b :: rest => let (out, st') := step st b in out ++ decode st' rest
  end.

(** [buffer.toString('utf8')] *)
Definition toString (buf : Buffer) : string :=
  string_of_list_byte (decode Idle buf).

(** [Buffer.from(s, 'utf8')] *)
Definition fromString (s : string) : Buffer := list_byte_of_string s.

(** Well-formed UTF-8: every sequence follows table 3-7. *)
Fixpoint valid (bs : list byte) : bool :=
  match bs with
  | [] => true
  | b0 :: r0 =>
      match classify b0 with
      | Single => valid r0
      | Invalid => false
      | Lead n lo hi =>
          match n, r0 with
          | 1, b1 :: r1 => in_range lo hi b1 && valid r1
          | 2, b1 :: b2 :: r2 =>
              in_range lo hi b1 && in_range 0x80 0xBF b2 && valid r2
          | 3, b1 :: b2 :: b3 :: r3 =>
              in_range lo hi b1 && in_range 0x80 0xBF b2
              && in_range 0x80 0xBF b3 && valid r3
          | _, _ => false
          end
      end
  end.

End Utf8.

(* ================================================================== *)
(** * The base64 codec of Node *)

Module Base64.

Definition alphabet : list ascii :=
  list_ascii_of_string
    "ABCDEFGHIJKLMNOPQRSTUVWXYZabcdefghijklmnopqrstuvwxyz0123456789+/".

Definition pad : ascii := "="%char.

Definition char_of (n : N) : ascii := nth (N.to_nat n) alphabet pad.

(** The decoder accepts the standard and the URL-safe alphabet. *)
Definition value_of (c : ascii) : option N :=
  let n := N_of_ascii c in
  (if (65 <=? n) && (n <=? 90) then Some (n - 65)
   else if (97 <=? n) && (n <=? 122) then Some (n - 71)
   else if (48 <=? n) && (n <=? 57) then Some (n + 4)
   else if (n =? 43) || (n =? 45) then Some 62
   else if (n =? 47) || (n =? 95) then Some 63
   else None)%N.

Definition byte_of (n : N) : byte :=
  match Byte.of_N n with Some b => b | None => x00 end.

Definition pack3 (a b c : byte) : N :=
  (Byte.to_N a * 65536 + Byte.to_N b * 256 + Byte.to_N c)%N.

Fixpoint encode (bs : list byte) : list ascii :=
  match bs with
  | [] => []
  | [a] =>
      let n := pack3 a x00 x00 in
      [char_of (n / 262144); char_of ((n / 4096) mod 64); pad; pad]%N
  | [a; b] =>
      let n := pack3 a b x00 in
      [char_of (n / 262144); char_of ((n / 4096) mod 64);
       char_of ((n / 64) mod 64); pad]%N
  | a :: b :: c :: rest =>
      let n := pack3 a b c in
      [char_of (n / 262144); char_of ((n / 4096) mod 64);
       char_of ((n / 64) mod 64); char_of (n mod 64)]%N ++ encode rest
  end.

(** [buffer.toString('base64')] *)
Definition toString (buf : Buffer) : string :=
  string_of_list_ascii (encode buf).

(** Characters outside the alphabets are skipped; the first padding
    character ends the data. *)
Fixpoint sextets (cs : list ascii) : list N :=
  match cs with
  | [] => []
  | c :: rest =>
      if Ascii.eqb c pad then []
      else match value_of c with
           | Some v => v :: sextets rest
           | None => sextets rest
           end
  end.

Fixpoint bytes_of_sextets (vs : list N) : list byte :=
  match vs with
  | a :: b :: c :: d :: rest =>
      let n := (a * 262144 + b * 4096 + c * 64 + d)%N in
      [byte_of (n / 65536); byte_of ((n / 256) mod 256); byte_of (n mod 256)]%N
        ++ bytes_of_sextets rest
  | [a; b; c] =>
      let n := (a * 262144 + b * 4096 + c * 64)%N in
      [byte_of (n / 65536); byte_of ((n / 256) mod 256)]%N
  | [a; b] =>
      let n := (a * 262144 + b * 4096)%N in
      [byte_of (n / 65536)]%N
  | _ => []
  end.

(** [Buffer.from(s, 'base64')] *)
Definition fromString (s : string) : Buffer :=
  bytes_of_sextets (sextets (list_ascii_of_string s)).

End Base64.

(* ================================================================== *)
(** * JavaScript strings *)

Module Js.

Local Open Scope string_scope.

Definition chars (s : string) : list ascii := list_ascii_of_string s.
Definition text (cs : list ascii) : string := string_of_list_ascii cs.

(** [s.startsWith(p)] and [s.endsWith(p)] *)
Definition startsWith (p s : string) : bool := String.prefix p s.

Definition endsWith (p s : string) : bool :=
  String.prefix (text (List.rev (chars p))) (text (List.rev (chars s))).

(** [s.indexOf(needle)]: [None] stands for -1. *)
Definition indexOf (needle s : string) : option nat := String.index 0 needle s.

(** [s.substring(a, b)] swaps its arguments when [a > b]. *)
Definition substring (a b : nat) (s : string) : string :=
  String.substring (Nat.min a b) (Nat.max a b - Nat.min a b) s.

(** White space removed by [trim]; of the characters ECMAScript lists, the
    model keeps the ASCII ones. *)
Definition is_space (c : ascii) : bool :=
  let n := N_of_ascii c in
  ((n =? 32) || ((9 <=? n) && (n <=? 13)))%N.

Fixpoint trimStart (cs : list ascii) : list ascii :=
  match cs with
  | c :: rest => if is_space c then trimStart rest else cs
  | [] => []
  end.

Definition trim (s : string) : string :=
  text (List.rev (trimStart (List.rev (trimStart (chars s))))).

(** [s.split(sep)] for a one-character separator. *)
Fixpoint split_chars (sep : ascii) (cur : list ascii) (cs : list ascii)
  : list string :=
  match cs with
  | [] => [text (List.rev cur)]
  | c :: rest =>
      if Ascii.eqb c sep then text (List.rev cur) :: split_chars sep [] rest
      else split_chars sep (c :: cur) rest
  end.

Definition split (sep : ascii) (s : string) : list string :=
  split_chars sep [] (chars s).

(** Decimal rendering of a number in a template literal. *)
Definition of_nat (n : nat) : string := NilZero.string_of_uint (Nat.to_uint n).
Definition of_Z (z : Z) : string := NilZero.string_of_int (Z.to_int z).

End Js.

(* ================================================================== *)
(** * JSON values, [JSON.stringify] and [JSON.parse] *)

Module Json.

Local Open Scope string_scope.

(** A number [Num m e] stands for [m * 10^e].  Objects keep their properties
    in insertion order. *)
Inductive value : Type :=
| Null
| Bool (b : bool)
| Num (m e : Z)
| Str (s : string)
| Arr (items : list value)
| Obj (fields : list (string * value)).

Definition nat_num (n : nat) : value := Num (Z.of_nat n) 0.

(** ** Properties of objects *)

Fixpoint lookup (k : string) (fields : list (string * value)) : option value :=
  match fields with
  | [] => None
  | (k', v) :: rest => if String.eqb k k' then Some v else lookup k rest
  end.

(** [o[k] = v]: an existing property keeps its place. *)
Fixpoint assign (k : string) (v : value) (fields : list (string * value))
  : list (string * value) :=
  match fields with
  | [] => [(k, v)]
  | (k', v') :: rest =>
      if String.eqb k k' then (k, v) :: rest else (k', v') :: assign k v rest
  end.

(** [delete o[k]] *)
Definition remove (k : string) (fields : list (string * value))
  : list (string * value) :=
  filter (fun kv => negb (String.eqb k (fst kv))) fields.

(** Truthiness: [null], [false], [0] and the empty string are falsy. *)
Definition truthy (v : value) : bool :=
  match v with
  | Null => false
  | Bool b => b
  | Num m _ => negb (m =? 0)%Z
  | Str s => negb (String.eqb s "")
  | Arr _ | Obj _ => true
  end.

Definition truthy_opt (o : option value) : bool :=
  match o with Some v => truthy v | None => false end.

(** ** Printing *)

Definition dquote : string := String (ascii_of_N 34) "".

Definition hex_digit (n : N) : ascii :=
  nth (N.to_nat n) (Js.chars "0123456789abcdef") "0"%char.

Definition escape (c : ascii) : string :=
  let n := N_of_ascii c in
  if (n =? 34)%N then "\" ++ dquote
  else if (n =? 92)%N then "\\"
  else if (n =? 8)%N then "\b"
  else if (n =? 12)%N then "\f"
  else if (n =? 10)%N then "\n"
  else if (n =? 13)%N then "\r"
  else if (n =? 9)%N then "\t"
  else if (n <? 32)%N then
    "\u00" ++ String (hex_digit (n / 16)) (String (hex_digit (n mod 16)) "")
  else String c "".

Definition quote (s : string) : string :=
  dquote ++ String.concat "" (map escape (Js.chars s)) ++ dquote.

Definition newline : string := String (ascii_of_N 10) "".

Definition print_num (m e : Z) : string :=
  if (e =? 0)%Z then Js.of_Z m else Js.of_Z m ++ "e" ++ Js.of_Z e.

(** [JSON.stringify(v, null, 2)] at the given indentation. *)
Fixpoint print (indent : string) (v : value) : string :=
  let inner := indent ++ "  " in
  match v with
  | Null => "null"
  | Bool true => "true"
  | Bool false => "false"
  | Num m e => print_num m e
  | Str s => quote s
  | Arr [] => "[]"
  | Arr items =>
      "[" ++ newline ++ inner
      ++ String.concat ("," ++ newline ++ inner) (map (print inner) items)
      ++ newline ++ indent ++ "]"
  | Obj [] => "{}"
  | Obj fields =>
      "{" ++ newline ++ inner
      ++ String.concat ("," ++ newline ++ inner)
           (map (fun kv => quote (fst kv) ++ ": " ++ print inner (snd kv))
                fields)
      ++ newline ++ indent ++ "}"
  end.

Definition stringify (v : value) : string := print "" v.

(** ** Parsing *)

Definition is_ws (c : ascii) : bool :=
  let n := N_of_ascii c in
  ((n =? 32) || (n =? 9) || (n =? 10) || (n =? 13))%N.

Fixpoint skip_ws (cs : list ascii) : list ascii :=
  match cs with
  | c :: rest => if is_ws c then skip_ws rest else cs
  | [] => []
  end.

Definition is_digit (c : ascii) : bool :=
  let n := N_of_ascii c in ((48 <=? n) && (n <=? 57))%N.

Definition digit_val (c : ascii) : Z := Z.of_N (N_of_ascii c) - 48.

Definition hex_val (c : ascii) : option N :=
  let n := N_of_ascii c in
  (if (48 <=? n) && (n <=? 57) then Some (n - 48)
   else if (65 <=? n) && (n <=? 70) then Some (n - 55)
   else if (97 <=? n) && (n <=? 102) then Some (n - 87)
   else None)%N.

Definition hex4 (a b c d : ascii) : option N :=
  match hex_val a, hex_val b, hex_val c, hex_val d with
  | Some x, Some y, Some z, Some w => Some (x * 4096 + y * 256 + z * 16 + w)%N
  | _, _, _, _ => None
  end.

(** The UTF-8 form of a code point (a lone surrogate takes the generalized
    three-byte form). *)
Definition utf8_of_code (cp : N) : list ascii :=
  (if cp <? 128 then [ascii_of_N cp]
   else if cp <? 2048 then
     [ascii_of_N (192 + cp / 64); ascii_of_N (128 + cp mod 64)]
   else if cp <? 65536 then
     [ascii_of_N (224 + cp / 4096); ascii_of_N (128 + (cp / 64) mod 64);
      ascii_of_N (128 + cp mod 64)]
   else
     [ascii_of_N (240 + cp / 262144); ascii_of_N (128 + (cp / 4096) mod 64);
      ascii_of_N (128 + (cp / 64) mod 64); ascii_of_N (128 + cp mod 64)])%N.

Definition is_high_surrogate (u : N) : bool := ((55296 <=? u) && (u <=? 56319))%N.
Definition is_low_surrogate (u : N) : bool := ((56320 <=? u) && (u <=? 57343))%N.

Definition simple_escape (c : ascii) : option ascii :=
  let n := N_of_ascii c in
  (if (n =? 34) || (n =? 92) || (n =? 47) then Some c
   else if n =? 98 then Some (ascii_of_N 8)
   else if n =? 102 then Some (ascii_of_N 12)
   else if n =? 110 then Some (ascii_of_N 10)
   else if n =? 114 then Some (ascii_of_N 13)
   else if n =? 116 then Some (ascii_of_N 9)
   else None)%N.

Definition backslash : ascii := ascii_of_N 92.
Definition quote_char : ascii := ascii_of_N 34.

Definition cons_chars (pre : list ascii) (r : option (list ascii * list ascii))
  : option (list ascii * list ascii) :=
  match r with
  | Some (body, rest) => Some ((pre ++ body)%list, rest)
  | None => None
  end.

(** The characters of a string literal after its opening quote, and the
    input left after its closing quote. *)
Fixpoint parse_chars (cs : list ascii) : option (list ascii * list ascii) :=
  match cs with
  | [] => None
  | c :: r =>
      if Ascii.eqb c quote_char then Some ([], r)
      else if Ascii.eqb c backslash then
        match r with
        | [] => None
        | e :: r1 =>
            if Ascii.eqb e "u"%char then
              match r1 with
              | h1 :: h2 :: h3 :: h4 :: r2 =>
                  match hex4 h1 h2 h3 h4 with
                  | None => None
                  | Some u =>
                      match r2 with
                      | b :: v :: g1 :: g2 :: g3 :: g4 :: r3 =>
                          match hex4 g1 g2 g3 g4 with
                          | Some l =>
                              if Ascii.eqb b backslash && Ascii.eqb v "u"%char
                                 && is_high_surrogate u && is_low_surrogate l
                              then
                                cons_chars
                                  (utf8_of_code
                                     (65536 + (u - 55296) * 1024 + (l - 56320))%N)
                                  (parse_chars r3)
                              else cons_chars (utf8_of_code u) (parse_chars r2)
                          | None => cons_chars (utf8_of_code u) (parse_chars r2)
                          end
                      | _ => cons_chars (utf8_of_code u) (parse_chars r2)
                      end
                  end
              | _ => None
              end
            else
              match simple_escape e with
              | Some x => cons_chars [x] (parse_chars r1)
              | None => None
              end
        end
      else if (N_of_ascii c <? 32)%N then None
      else cons_chars [c] (parse_chars r)
  end.

Definition parse_string (cs : list ascii) : option (string * list ascii) :=
  match parse_chars cs with
  | Some (body, rest) => Some (Js.text body, rest)
  | None => None
  end.

(** ** Numbers: [-? int frac? exp?] *)

Fixpoint span_digits (cs : list ascii) : list ascii * list ascii :=
  match cs with
  | c :: rest =>
      if is_digit c then let (ds, r) := span_digits rest in (c :: ds, r)
      else ([], cs)
  | [] => ([], [])
  end.

Definition digits_val (acc : Z) (ds : list ascii) : Z :=
  fold_left (fun a d => a * 10 + digit_val d)%Z ds acc.

Definition parse_exponent (cs : list ascii) : option (Z * list ascii) :=
  match cs with
  | c :: r =>
      if Ascii.eqb c "e"%char || Ascii.eqb c "E"%char then
        let '(sign, r1) :=
          match r with
          | s :: r' =>
              if Ascii.eqb s "-"%char then ((-1)%Z, r')
              else if Ascii.eqb s "+"%char then (1%Z, r')
              else (1%Z, r)
          | [] => (1%Z, r)
          end in
        match span_digits r1 with
        | ([], _) => None
        | (ds, r2) => Some ((sign * digits_val 0 ds)%Z, r2)
        end
      else Some (0%Z, cs)
  | [] => Some (0%Z, [])
  end.

Definition parse_fraction (cs : list ascii) : option (list ascii * list ascii) :=
  match cs with
  | c :: r =>
      if Ascii.eqb c "."%char then
        match span_digits r with
        | ([], _) => None
        | (ds, r1) => Some (ds, r1)
        end
      else Some ([], cs)
  | [] => Some ([], [])
  end.

Definition parse_number (cs : list ascii) : option (value * list ascii) :=
  let '(sign, r0) :=
    match cs with
    | c :: r => if Ascii.eqb c "-"%char then ((-1)%Z, r) else (1%Z, cs)
    | [] => (1%Z, cs)
    end in
  match span_digits r0 with
  | ([], _) => None
  | (d :: ds, r1) =>
      if Ascii.eqb d "0"%char && negb (Nat.eqb (List.length ds) 0) then None
      else
        match parse_fraction r1 with
        | None => None
        | Some (fs, r2) =>
            match parse_exponent r2 with
            | None => None
            | Some (ex, r3) =>
                Some (Num (sign * digits_val (digits_val 0 (d :: ds)) fs)
                          (ex - Z.of_nat (List.length fs)), r3)
            end
        end
  end.

Fixpoint expect (word : list ascii) (cs : list ascii) : option (list ascii) :=
  match word, cs with
  | [], _ => Some cs
  | w :: word', c :: cs' => if Ascii.eqb w c then expect word' cs' else None
  | _ :: _, [] => None
  end.

(** ** Values.  Every call spends one unit of fuel. *)

Fixpoint parse_value (fuel : nat) (cs : list ascii)
  : option (value * list ascii) :=
  match fuel with
  | O => None
  | S fuel' =>
      match skip_ws cs with
      | [] => None
      | c :: r =>
          if Ascii.eqb c "{"%char then
            match skip_ws r with
            | c1 :: r1 =>
                if Ascii.eqb c1 "}"%char then Some (Obj [], r1)
                else parse_members fuel' (c1 :: r1) []
            | [] => None
            end
          else if Ascii.eqb c "["%char then
            match skip_ws r with
            | c1 :: r1 =>
                if Ascii.eqb c1 "]"%char then Some (Arr [], r1)
                else parse_elements fuel' (c1 :: r1) []
            | [] => None
            end
          else if Ascii.eqb c quote_char then
            match parse_string r with
            | Some (s, r1) => Some (Str s, r1)
            | None => None
            end
          else if Ascii.eqb c "t"%char then
            option_map (pair (Bool true)) (expect (Js.chars "rue") r)
          else if Ascii.eqb c "f"%char then
            option_map (pair (Bool false)) (expect (Js.chars "alse") r)
          else if Ascii.eqb c "n"%char then
            option_map (pair Null) (expect (Js.chars "ull") r)
          else parse_number (c :: r)
      end
  end

with parse_elements (fuel : nat) (cs : list ascii) (acc : list value)
  : option (value * list ascii) :=
  match fuel with
  | O => None
  | S fuel' =>
      match parse_value fuel' cs with
      | None => None
      | Some (v, r) =>
          match skip_ws r with
          | c :: r1 =>
              if Ascii.eqb c ","%char then parse_elements fuel' r1 (acc ++ [v])%list
              else if Ascii.eqb c "]"%char then Some (Arr (acc ++ [v])%list, r1)
              else None
          | [] => None
          end
      end
  end

with parse_members (fuel : nat) (cs : list ascii) (acc : list (string * value))
  : option (value * list ascii) :=
  match fuel with
  | O => None
  | S fuel' =>
      match skip_ws cs with
      | q :: r =>
          if Ascii.eqb q quote_char then
            match parse_string r with
            | None => None
            | Some (k, r1) =>
                match skip_ws r1 with
                | colon :: r2 =>
                    if Ascii.eqb colon ":"%char then
                      match parse_value fuel' r2 with
                      | None => None
                      | Some (v, r3) =>
                          match skip_ws r3 with
                          | c :: r4 =>
                              if Ascii.eqb c ","%char then
                                parse_members fuel' r4 (assign k v acc)
                              else if Ascii.eqb c "}"%char then
                                Some (Obj (assign k v acc), r4)
                              else None
                          | [] => None
                          end
                      end
                    else None
                | [] => None
                end
            end
          else None
      | [] => None
      end
  end.

(** [JSON.parse(text)]; [None] stands for the [SyntaxError]. *)
Definition parse (text : string) : option value :=
  let cs := Js.chars text in
  match parse_value (2 * List.length cs + 2) cs with
  | Some (v, rest) =>
      match skip_ws rest with
      | [] => Some v
      | _ :: _ => None
      end
  | None => None
  end.

End Json.

(* ================================================================== *)
(** * Paths (module [path] of Node, POSIX flavour)

    The model has one root, which stands for the working directory; a
    leading [..] does not leave it. *)

Module Path.

Local Open Scope string_scope.

Definition raw_segments (p : string) : list string :=
  filter (fun s => negb (String.eqb s "")) (Js.split "/" p).

Fixpoint resolve (acc : list string) (segs : list string) : list string :=
  match segs with
  | [] => List.rev acc
  | s :: rest =>
      if String.eqb s "." then resolve acc rest
      else if String.eqb s ".." then resolve (List.tl acc) rest
      else resolve (s :: acc) rest
  end.

(** The names a path goes through, from the root. *)
Definition segments (p : string) : list string := resolve [] (raw_segments p).

Definition is_absolute (p : string) : bool := Js.startsWith "/" p.

Definition render (absolute : bool) (segs : list string) : string :=
  let body := String.concat "/" segs in
  if absolute then "/" ++ body
  else if String.eqb body "" then "." else body.

Definition normalize (p : string) : string :=
  render (is_absolute p) (segments p).

(** [path.join(a, b)] *)
Definition join (a b : string) : string :=
  normalize (if String.eqb a "" then b
             else if String.eqb b "" then a
             else a ++ "/" ++ b).

(** [path.dirname(p)] *)
Definition dirname (p : string) : string :=
  render (is_absolute p) (List.removelast (raw_segments p)).

(** [path.basename(p)] *)
Definition basename (p : string) : string :=
  List.last (raw_segments p) "".

(** [path.relative(basePath, path.join(folderPath, item))] where [rel] is
    [folderPath] relative to [basePath] (empty for the base itself) and
    [item] is a name returned by [readdirSync]. *)
Definition child (rel item : string) : string :=
  if String.eqb rel "" then item else rel ++ "/" ++ item.

End Path.

(* ================================================================== *)
(** * The file system *)

Module Fs.

Local Open Scope string_scope.

Inductive node : Type :=
| File (data : Buffer)
| Dir (entries : list (string * node)).

Inductive errno : Type := ENOENT | ENOTDIR | EISDIR | EEXIST.

Fixpoint find (name : string) (entries : list (string * node)) : option node :=
  match entries with
  | [] => None
  | (n, c) :: rest => if String.eqb name n then Some c else find name rest
  end.

(** Replaces the entry called [name], which keeps its place in the listing. *)
Fixpoint replace (name : string) (c : node) (entries : list (string * node))
  : list (string * node) :=
  match entries with
  | [] => []
  | (n, c') :: rest =>
      if String.eqb name n then (n, c) :: rest
      else (n, c') :: replace name c rest
  end.

Definition unlink (name : string) (entries : list (string * node))
  : list (string * node) :=
  filter (fun e => negb (String.eqb name (fst e))) entries.

Fixpoint lookup (segs : list string) (n : node) : option node :=
  match segs with
  | [] => Some n
  | s :: rest =>
      match n with
      | File _ => None
      | Dir entries =>
          match find s entries with
          | Some c => lookup rest c
          | None => None
          end
      end
  end.

(** Creates or overwrites a file; a new name goes to the end of the
    listing of its directory. *)
Fixpoint write (segs : list string) (data : Buffer) (n : node)
  : errno + node :=
  match segs with
  | [] =>
      match n with
      | File _ => inr (File data)
      | Dir _ => inl EISDIR
      end
  | s :: rest =>
      match n with
      | File _ => inl ENOTDIR
      | Dir entries =>
          match find s entries with
          | Some c =>
              match write rest data c with
              | inr c' => inr (Dir (replace s c' entries))
              | inl e => inl e
              end
          | None =>
              match rest with
              | [] => inr (Dir (entries ++ [(s, File data)]))
              | _ :: _ => inl ENOENT
              end
          end
      end
  end.

(** [mkdir -p] *)
Fixpoint mkdirp (segs : list string) (n : node) : errno + node :=
  match segs with
  | [] =>
      match n with
      | Dir _ => inr n
      | File _ => inl EEXIST
      end
  | s :: rest =>
      match n with
      | File _ => inl ENOTDIR
      | Dir entries =>
          match find s entries with
          | Some c =>
              match mkdirp rest c with
              | inr c' => inr (Dir (replace s c' entries))
              | inl e => inl e
              end
          | None =>
              match mkdirp rest (Dir []) with
              | inr c' => inr (Dir (entries ++ [(s, c')]))
              | inl e => inl e
              end
          end
      end
  end.

(** [rm -rf]; removing the root itself is left out of the model. *)
Fixpoint remove (segs : list string) (n : node) : node :=
  match segs with
  | [] => n
  | s :: rest =>
      match n with
      | File _ => n
      | Dir entries =>
          match rest with
          | [] => Dir (unlink s entries)
          | _ :: _ =>
              match find s entries with
              | Some c => Dir (replace s (remove rest c) entries)
              | None => n
              end
          end
      end
  end.

Definition describe (e : errno) : string :=
  match e with
  | ENOENT => "ENOENT: no such file or directory"
  | ENOTDIR => "ENOTDIR: not a directory"
  | EISDIR => "EISDIR: illegal operation on a directory"
  | EEXIST => "EEXIST: file already exists"
  end.

End Fs.

(* ================================================================== *)
(** * Exceptions, state and the monad of methods *)

Local Open Scope string_scope.

Inductive exn : Type :=
| Error (message : string)
| TypeError (message : string)
| SyntaxError (message : string)
| SystemError (code : Fs.errno) (syscall path : string).

(** [error.message] *)
Definition message (e : exn) : string :=
  match e with
  | Error m | TypeError m | SyntaxError m => m
  | SystemError code syscall path =>
      Fs.describe code ++ ", " ++ syscall ++ " '" ++ path ++ "'"
  end.

(** [FolderSnapOptions], with its defaults filled in. *)
Record FolderSnapOptions : Type := {
  encoding : string;
  gitignoreFile : string;
  includeHidden : bool
}.

Definition defaultOptions : FolderSnapOptions :=
  {| encoding := "utf8"; gitignoreFile := ".gitignore"; includeHidden := false |}.

(** An instance of class [FolderSnap]: [ig] holds the patterns added to the
    [ignore()] object so far, oldest first. *)
Record FolderSnap : Type := {
  options : FolderSnapOptions;
  ig : list string
}.

(** [new FolderSnap(options)] *)
Definition constructor (o : FolderSnapOptions) : FolderSnap :=
  {| options := o; ig := [] |}.

Record State : Type := {
  disk : Fs.node;
  this : FolderSnap
}.

Inductive outcome (A : Type) : Type :=
| Return (a : A)
| Throw (e : exn).

Arguments Return {A} a.
Arguments Throw {A} e.

Definition M (A : Type) : Type := State -> outcome A * State.

Definition ret {A} (a : A) : M A := fun st => (Return a, st).

Definition throw {A} (e : exn) : M A := fun st => (Throw e, st).

Definition bind {A B} (m : M A) (k : A -> M B) : M B :=
  fun st =>
    match m st with
    | (Return a, st') => k a st'
    | (Throw e, st') => (Throw e, st')
    end.

(** [try { body } catch (error) { handler }] *)
Definition try_catch {A} (body : M A) (handler : exn -> M A) : M A :=
  fun st =>
    match body st with
    | (Return a, st') => (Return a, st')
    | (Throw e, st') => handler e st'
    end.

Declare Scope monad_scope.
Delimit Scope monad_scope with monad.
Notation "x <- m ;; k" := (bind m (fun x => k))
  (at level 61, m at next level, right associativity) : monad_scope.
Notation "m ;; k" := (bind m (fun _ => k))
  (at level 61, right associativity) : monad_scope.
Local Open Scope monad_scope.

Definition when (b : bool) (m : M unit) : M unit := if b then m else ret tt.

Fixpoint mapM {A B} (f : A -> M B) (l : list A) : M (list B) :=
  match l with
  | [] => ret []
  | x :: rest => y <- f x ;; ys <- mapM f rest ;; ret (y :: ys)
  end.

Fixpoint forM_ {A} (l : list A) (f : A -> M unit) : M unit :=
  match l with
  | [] => ret tt
  | x :: rest => f x ;; forM_ rest f
  end.

Fixpoint filterM {A} (f : A -> M bool) (l : list A) : M (list A) :=
  match l with
  | [] => ret []
  | x :: rest =>
      b <- f x ;; ys <- filterM f rest ;; ret (if b then x :: ys else ys)
  end.

Definition get_disk : M Fs.node := fun st => (Return (disk st), st).

Definition put_disk (d : Fs.node) : M unit :=
  fun st => (Return tt, {| disk := d; this := this st |}).

Definition get_this : M FolderSnap := fun st => (Return (this st), st).

Definition put_this (t : FolderSnap) : M unit :=
  fun st => (Return tt, {| disk := disk st; this := t |}).

(** ** Module [fs] *)

Definition existsSync (p : string) : M bool :=
  d <- get_disk ;;
  ret (match Fs.lookup (Path.segments p) d with Some _ => true | None => false end).

(** [fs.statSync(p).isDirectory()] *)
Definition isDirectory (p : string) : M bool :=
  d <- get_disk ;;
  match Fs.lookup (Path.segments p) d with
  | Some (Fs.Dir _) => ret true
  | Some (Fs.File _) => ret false
  | None => throw (SystemError Fs.ENOENT "stat" p)
  end.

(** [fs.readFileSync(p)] *)
Definition readFileSync (p : string) : M Buffer :=
  d <- get_disk ;;
  match Fs.lookup (Path.segments p) d with
  | Some (Fs.File data) => ret data
  | Some (Fs.Dir _) => throw (SystemError Fs.EISDIR "read" p)
  | None => throw (SystemError Fs.ENOENT "open" p)
  end.

(** [fs.readFileSync(p, 'utf8')] *)
Definition readTextSync (p : string) : M string :=
  data <- readFileSync p ;; ret (Utf8.toString data).

(** [fs.writeFileSync(p, buffer)] *)
Definition writeFileSync (p : string) (data : Buffer) : M unit :=
  d <- get_disk ;;
  match Fs.write (Path.segments p) data d with
  | inr d' => put_disk d'
  | inl e => throw (SystemError e "open" p)
  end.

(** [fs.writeFileSync(p, text, 'utf8')] *)
Definition writeTextSync (p : string) (text : string) : M unit :=
  writeFileSync p (Utf8.fromString text).

(** [fs.mkdirSync(p, { recursive: true })] *)
Definition mkdirSync (p : string) : M unit :=
  d <- get_disk ;;
  match Fs.mkdirp (Path.segments p) d with
  | inr d' => put_disk d'
  | inl e => throw (SystemError e "mkdir" p)
  end.

(** [fs.rmSync(p, { recursive: true, force: true })] *)
Definition rmSync (p : string) : M unit :=
  d <- get_disk ;; put_disk (Fs.remove (Path.segments p) d).

(** ** Dynamic values *)

(** [JSON.parse(text)]; the engine words the message of its [SyntaxError]
    after the input, the model has one wording. *)
Definition JSON_parse (text : string) : M Json.value :=
  match Json.parse text with
  | Some v => ret v
  | None => throw (SyntaxError "Unexpected token in JSON")
  end.

(** [v.k]: reading a property of [null] or [undefined] throws. *)
Definition prop (v : option Json.value) (k : string) : M (option Json.value) :=
  match v with
  | None => throw (TypeError ("Cannot read properties of undefined (reading '" ++ k ++ "')"))
  | Some Json.Null => throw (TypeError ("Cannot read properties of null (reading '" ++ k ++ "')"))
  | Some (Json.Obj fields) => ret (Json.lookup k fields)
  | Some _ => ret None
  end.

(** [v === 'literal'] *)
Definition is_string (lit : string) (v : option Json.value) : bool :=
  match v with
  | Some (Json.Str s) => String.eqb s lit
  | _ => false
  end.

(** A string argument of [path.join], which rejects anything else. *)
Definition path_arg (v : option Json.value) : M string :=
  match v with
  | Some (Json.Str s) => ret s
  | _ => throw (TypeError "The path argument must be of type string")
  end.

(** [v.filter(f)] on what must be an array. *)
Definition array_filter (v : option Json.value) (f : Json.value -> M bool)
  : M (list Json.value) :=
  match v with
  | Some (Json.Arr items) => filterM f items
  | None => throw (TypeError "Cannot read properties of undefined (reading 'filter')")
  | Some Json.Null => throw (TypeError "Cannot read properties of null (reading 'filter')")
  | Some _ => throw (TypeError "filter is not a function")
  end.

(** [item => item.type === lit] *)
Definition has_type (lit : string) (item : Json.value) : M bool :=
  t <- prop (Some item) "type" ;; ret (is_string lit t).

(** [SnapResult] *)
Record SnapResult : Type := {
  success : bool;
  outputPath : option string;
  outputFolder : option string;
  stats : option Json.value;
  error : option string
}.

Definition failure (e : exn) : SnapResult :=
  {| success := false; outputPath := None; outputFolder := None;
     stats := None; error := Some (message e) |}.

(* ================================================================== *)
(** * A matcher for ignore rules

    The pattern engine of package [ignore] is a parameter of the embedding.
    This fragment of its rules instantiates it in examples: a plain name
    matches any segment of the path, [*suffix] matches a segment with that
    ending, [name/] matches below a directory of that name (the engine takes
    a path without a trailing slash as a file), [!rule] takes back an earlier
    match, blank lines and comments do nothing, the last matching rule wins.
    Other patterns are outside the fragment and match nothing. *)

Module Ignore.

Definition strip_cr (l : string) : string :=
  if Js.endsWith (String (ascii_of_N 13) "") l
  then String.substring 0 (String.length l - 1) l else l.

(** The rules of an ignore file, one per line. *)
Definition lines (content : string) : list string :=
  map strip_cr (Js.split (ascii_of_N 10) content).

Definition has_char (c : ascii) (s : string) : bool :=
  existsb (Ascii.eqb c) (Js.chars s).

Definition tail (s : string) : string :=
  String.substring 1 (String.length s - 1) s.

Definition match_rule (pattern path : string) : bool :=
  let segs := Js.split "/" path in
  if Js.endsWith "/" pattern then
    let name := String.substring 0 (String.length pattern - 1) pattern in
    negb (has_char "/" name) && negb (has_char "*" name)
    && existsb (String.eqb name) (List.removelast segs)
  else if has_char "/" pattern then false
  else if Js.startsWith "*" pattern then
    negb (has_char "*" (tail pattern))
    && existsb (Js.endsWith (tail pattern)) segs
  else negb (has_char "*" pattern) && existsb (String.eqb pattern) segs.

Definition apply_rule (verdict : bool) (rule : string) (path : string) : bool :=
  let r := Js.trim rule in
  if String.eqb r "" || Js.startsWith "#" r then verdict
  else if Js.startsWith "!" r then
    if match_rule (tail r) path then false else verdict
  else if match_rule r path then true else verdict.

Definition ignores (rules : list string) (path : string) : bool :=
  fold_left (fun verdict rule => apply_rule verdict rule path) rules false.

End Ignore.

(* ================================================================== *)
(** * The v3 unit of [src/index.ts]: manifest and sidecar content files *)

Module V3.

Section Engine.

(** [ig.ignores(path)] for the rules added so far. *)
Variable ignores : list string -> string -> bool.

(** [new Date().toISOString()] *)
Variable now : string.

(** [this.ig.add(patterns)] *)
Definition ig_add (patterns : list string) : M unit :=
  t <- get_this ;;
  put_this {| options := options t; ig := ig t ++ patterns |}.

Definition defaultIgnores : list string :=
  ["node_modules/"; "venv/"; ".git/"; "*.log"; ".DS_Store"; "Thumbs.db"].

Definition loadGitignore (folderPath : string) : M unit :=
  t <- get_this ;;
  let gitignorePath := Path.join folderPath (gitignoreFile (options t)) in
  ig_add defaultIgnores ;;
  found <- existsSync gitignorePath ;;
  if found then
    gitignoreContent <- readTextSync gitignorePath ;;
    ig_add (Ignore.lines gitignoreContent)
  else ret tt.

Definition shouldIgnore (t : FolderSnap) (relativePath : string) : bool :=
  if negb (includeHidden (options t))
     && Js.startsWith "." (Path.basename relativePath)
  then true
  else ignores (ig t) relativePath.

(** One UTF-16 unit outside [[a-zA-Z0-9._-]] becomes one underscore; on the
    UTF-8 form of the string that is one underscore for the first byte of a
    character (two beyond the basic plane) and nothing for the others. *)
Definition sanitize_char (c : ascii) : string :=
  let n := N_of_ascii c in
  (if ((97 <=? n) && (n <=? 122)) || ((65 <=? n) && (n <=? 90))
      || ((48 <=? n) && (n <=? 57)) || (n =? 46) || (n =? 95) || (n =? 45)
   then String c ""
   else if (128 <=? n) && (n <=? 191) then ""
   else if 240 <=? n then "__"
   else "_")%N.

(** String conversion in a template literal.  The writers apply it to
    strings and numbers; for an array the model does not spell the joined
    elements out. *)
Definition display (v : option Json.value) : string :=
  match v with
  | None => "undefined"
  | Some Json.Null => "null"
  | Some (Json.Bool true) => "true"
  | Some (Json.Bool false) => "false"
  | Some (Json.Num m e) => Json.print_num m e
  | Some (Json.Str s) => s
  | Some (Json.Arr _) => "[array]"
  | Some (Json.Obj _) => "[object Object]"
  end.

Definition generateContentFilename (filePath : string)
    (index : option Json.value) : string :=
  let safePath := String.concat "" (map sanitize_char (Js.chars filePath)) in
  "content_" ++ display index ++ "_" ++ safePath ++ ".bin".

Definition is_type (lit : string) (item : Json.value) : bool :=
  match item with
  | Json.Obj fields => is_string lit (Json.lookup "type" fields)
  | _ => false
  end.

Definition directoryItem (relativePath item : string) : Json.value :=
  Json.Obj [("type", Json.Str "directory"); ("path", Json.Str relativePath);
            ("name", Json.Str item)].

Definition fileItem (relativePath item : string) (size contentIndex : nat)
  : Json.value :=
  Json.Obj [("type", Json.Str "file"); ("path", Json.Str relativePath);
            ("name", Json.Str item); ("size", Json.nat_num size);
            ("contentIndex", Json.nat_num contentIndex)].

(** [readFolderStructure(folderPath, basePath)] on the directory node that
    [folderPath] denotes; [rel] is [folderPath] relative to [basePath].  The
    inner loop is the [for] over [fs.readdirSync(folderPath)], [structure] is
    the array it pushes to. *)
Fixpoint readFolderStructure (t : FolderSnap) (rel : string) (n : Fs.node)
  : list Json.value :=
  match n with
  | Fs.File _ => []
  | Fs.Dir entries =>
      (fix loop (items : list (string * Fs.node)) (structure : list Json.value)
         : list Json.value :=
         match items with
         | [] => structure
         | (item, child) :: rest =>
             let relativePath := Path.child rel item in
             if shouldIgnore t relativePath then loop rest structure
             else
               match child with
               | Fs.Dir _ =>
                   let subStructure := readFolderStructure t relativePath child in
                   loop rest
                     ((structure ++ [directoryItem relativePath item])
                        ++ subStructure)%list
               | Fs.File data =>
                   loop rest
                     (structure
                        ++ [fileItem relativePath item (List.length data)
                              (List.length (filter (is_type "file") structure))])%list
               end
         end) entries []
  end.

(** The walk from a path: [fs.readdirSync] throws on what is no directory. *)
Definition walk (folderPath : string) : M (list Json.value) :=
  d <- get_disk ;;
  t <- get_this ;;
  match Fs.lookup (Path.segments folderPath) d with
  | Some (Fs.Dir entries) => ret (readFolderStructure t "" (Fs.Dir entries))
  | Some (Fs.File _) => throw (SystemError Fs.ENOTDIR "scandir" folderPath)
  | None => throw (SystemError Fs.ENOENT "scandir" folderPath)
  end.

Definition count (lit : string) (structure : list Json.value) : nat :=
  List.length (filter (is_type lit) structure).

Definition makeMetadata (folderPath : string) (structure : list Json.value)
  : Json.value :=
  Json.Obj [("timestamp", Json.Str now);
            ("sourceFolder", Json.Str (Path.basename folderPath));
            ("totalFiles", Json.nat_num (count "file" structure));
            ("totalDirectories", Json.nat_num (count "directory" structure));
            ("version", Json.Str "3.0")].

(** [outputPath.replace(/\.snap$/, '_snap')] *)
Definition snapDirOf (outputPath : string) : string :=
  if Js.endsWith ".snap" outputPath
  then String.substring 0 (String.length outputPath - 5) outputPath ++ "_snap"
  else outputPath.

Definition field (k : string) (item : Json.value) : option Json.value :=
  match item with
  | Json.Obj fields => Json.lookup k fields
  | _ => None
  end.

Definition set_field (k : string) (v : Json.value) (item : Json.value)
  : Json.value :=
  match item with
  | Json.Obj fields => Json.Obj (Json.assign k v fields)
  | _ => item
  end.

(** One round of the loop that writes the sidecar files.  The loop runs over
    the file items of [structure] and updates them in place, so the model
    maps over [structure] and leaves the directories alone. *)
Definition writeContent (folderPath contentDir : string) (file : Json.value)
  : M Json.value :=
  if is_type "file" file then
    let filePath := Path.join folderPath (display (field "path" file)) in
    let contentFilename :=
      generateContentFilename (display (field "path" file))
                              (field "contentIndex" file) in
    let contentPath := Path.join contentDir contentFilename in
    try_catch
      (buffer <- readFileSync filePath ;;
       writeFileSync contentPath buffer ;;
       ret (set_field "contentFile" (Json.Str contentFilename) file))
      (fun _ =>
         writeTextSync contentPath "" ;;
         ret (set_field "contentFile" (Json.Str contentFilename) file))
  else ret file.

(** [{ contentIndex, contentFile, ...fileItem } = item; { ...fileItem, contentFile }] *)
Definition manifestItem (item : Json.value) : Json.value :=
  match item with
  | Json.Obj fields =>
      if is_type "file" item then
        let fileItem :=
          Json.remove "contentIndex" (Json.remove "contentFile" fields) in
        match Json.lookup "contentFile" fields with
        | Some contentFile => Json.Obj (fileItem ++ [("contentFile", contentFile)])%list
        | None => Json.Obj fileItem
        end
      else item
  | _ => item
  end.

Definition folderToText (folderPath outputPath : string) : M SnapResult :=
  try_catch
    (found <- existsSync folderPath ;;
     when (negb found)
       (throw (Error ("Source folder does not exist: " ++ folderPath))) ;;
     isDir <- isDirectory folderPath ;;
     when (negb isDir)
       (throw (Error ("Source path is not a directory: " ++ folderPath))) ;;
     loadGitignore folderPath ;;
     structure <- walk folderPath ;;
     let metadata := makeMetadata folderPath structure in
     let outputDir := Path.dirname outputPath in
     outputDirFound <- existsSync outputDir ;;
     when (negb outputDirFound) (mkdirSync outputDir) ;;
     let snapDir := snapDirOf outputPath in
     snapDirFound <- existsSync snapDir ;;
     when snapDirFound (rmSync snapDir) ;;
     mkdirSync snapDir ;;
     let contentDir := Path.join snapDir "content" in
     mkdirSync contentDir ;;
     structure' <- mapM (writeContent folderPath contentDir) structure ;;
     let metadataData :=
       Json.Obj [("metadata", metadata);
                 ("structure", Json.Arr (map manifestItem structure'))] in
     let metadataPath := Path.join snapDir "metadata.json" in
     writeTextSync metadataPath (Json.stringify metadataData) ;;
     let snapReference :=
       Json.Obj [("type", Json.Str "folder-snap-v3");
                 ("snapDirectory", Json.Str (Path.basename snapDir));
                 ("metadata", metadata)] in
     writeTextSync outputPath (Json.stringify snapReference) ;;
     ret {| success := true; outputPath := Some outputPath;
            outputFolder := None; stats := Some metadata; error := None |})
    (fun e => ret (failure e)).

(** The loop of the readers over the directory items. *)
Definition restoreDirectory (outputFolder : string) (dir : Json.value)
  : M unit :=
  p <- prop (Some dir) "path" ;;
  rel <- path_arg p ;;
  let dirPath := Path.join outputFolder rel in
  try_catch (mkdirSync dirPath) (fun _ => ret tt).

(** [if (!fs.existsSync(fileDir)) fs.mkdirSync(fileDir, { recursive: true })] *)
Definition ensureDir (fileDir : string) : M unit :=
  found <- existsSync fileDir ;;
  when (negb found) (mkdirSync fileDir).

Definition restoreFileV3 (snapDir outputFolder : string) (file : Json.value)
  : M unit :=
  p <- prop (Some file) "path" ;;
  rel <- path_arg p ;;
  let filePath := Path.join outputFolder rel in
  let fileDir := Path.dirname filePath in
  try_catch
    (ensureDir fileDir ;;
     contentFile <- prop (Some file) "contentFile" ;;
     if Json.truthy_opt contentFile then
       name <- path_arg contentFile ;;
       let contentPath := Path.join (Path.join snapDir "content") name in
       found <- existsSync contentPath ;;
       if found then
         buffer <- readFileSync contentPath ;;
         writeFileSync filePath buffer
       else writeTextSync filePath ""
     else writeTextSync filePath "")
    (fun _ => ret tt).

Definition unpackV3Snap (snapFilePath outputFolder : string)
    (snapData : Json.value) : M SnapResult :=
  try_catch
    (snapDirectory <- prop (Some snapData) "snapDirectory" ;;
     name <- path_arg snapDirectory ;;
     let snapDir := Path.join (Path.dirname snapFilePath) name in
     snapDirFound <- existsSync snapDir ;;
     when (negb snapDirFound)
       (throw (Error ("Snap directory not found: " ++ snapDir))) ;;
     let metadataPath := Path.join snapDir "metadata.json" in
     metadataFound <- existsSync metadataPath ;;
     when (negb metadataFound)
       (throw (Error ("Metadata file not found: " ++ metadataPath))) ;;
     metadataContent <- readTextSync metadataPath ;;
     data <- JSON_parse metadataContent ;;
     outputFound <- existsSync outputFolder ;;
     when (negb outputFound) (mkdirSync outputFolder) ;;
     structure <- prop (Some data) "structure" ;;
     directories <- array_filter structure (has_type "directory") ;;
     forM_ directories (restoreDirectory outputFolder) ;;
     files <- array_filter structure (has_type "file") ;;
     forM_ files (restoreFileV3 snapDir outputFolder) ;;
     metadata <- prop (Some data) "metadata" ;;
     _ <- prop metadata "timestamp" ;;
     ret {| success := true; outputPath := None;
            outputFolder := Some outputFolder; stats := metadata;
            error := None |})
    (fun e => ret (failure e)).

Definition startMarker : string := "<FOLDER_SNAP_START>".
Definition endMarker : string := "<FOLDER_SNAP_END>".

(** The text between the markers: [textContent.substring(startIndex +
    startMarker.length, endIndex).trim()]. *)
Definition extractJson (textContent : string) : option string :=
  match Js.indexOf startMarker textContent, Js.indexOf endMarker textContent with
  | Some startIndex, Some endIndex =>
      Some (Js.trim (Js.substring (startIndex + String.length startMarker)
                                  endIndex textContent))
  | _, _ => None
  end.

(** [Buffer.from(file.content, encoding)] for the inline content of the
    legacy and v2 formats; [None] when there is nothing to decode.  Content
    that is no string is outside interface [FileItem]; the model takes it as
    a fault of the file at hand. *)
Definition inlineContent (file : Json.value) : M (option Buffer) :=
  content <- prop (Some file) "content" ;;
  match content with
  | Some (Json.Str text) =>
      if String.eqb text "" then ret None
      else
        enc <- prop (Some file) "encoding" ;;
        if is_string "base64" enc then ret (Some (Base64.fromString text))
        else ret (Some (Utf8.fromString text))
  | Some v =>
      if Json.truthy v
      then throw (TypeError "The first argument must be of type string")
      else ret None
  | None => ret None
  end.

Definition restoreFileInline (outputFolder : string) (file : Json.value)
  : M unit :=
  p <- prop (Some file) "path" ;;
  rel <- path_arg p ;;
  let filePath := Path.join outputFolder rel in
  let fileDir := Path.dirname filePath in
  try_catch
    (ensureDir fileDir ;;
     content <- inlineContent file ;;
     match content with
     | Some buffer => writeFileSync filePath buffer
     | None => writeTextSync filePath ""
     end)
    (fun _ => ret tt).

Definition unpackLegacySnap (snapFilePath outputFolder : string)
  : M SnapResult :=
  try_catch
    (textContent <- readTextSync snapFilePath ;;
     jsonContent <-
       match extractJson textContent with
       | Some j => ret j
       | None =>
           throw (Error "Invalid legacy snap file format. Missing structure markers.")
       end ;;
     when (String.eqb jsonContent "")
       (throw (Error "Legacy snap file contains no JSON data.")) ;;
     data <-
       try_catch (JSON_parse jsonContent)
         (fun parseError =>
            throw (Error ("Failed to parse legacy JSON: " ++ message parseError))) ;;
     metadata <- prop (Some data) "metadata" ;;
     structure <- prop (Some data) "structure" ;;
     when (negb (Json.truthy_opt metadata) || negb (Json.truthy_opt structure))
       (throw (Error "Invalid legacy snap file structure. Missing metadata or structure.")) ;;
     outputFound <- existsSync outputFolder ;;
     when (negb outputFound) (mkdirSync outputFolder) ;;
     directories <- array_filter structure (has_type "directory") ;;
     forM_ directories (restoreDirectory outputFolder) ;;
     files <- array_filter structure (has_type "file") ;;
     forM_ files (restoreFileInline outputFolder) ;;
     _ <- prop metadata "timestamp" ;;
     ret {| success := true; outputPath := None;
            outputFolder := Some outputFolder; stats := metadata;
            error := None |})
    (fun e => ret (failure e)).

Definition textToFolder (snapFilePath outputFolder : string) : M SnapResult :=
  try_catch
    (found <- existsSync snapFilePath ;;
     when (negb found)
       (throw (Error ("Snap file does not exist: " ++ snapFilePath))) ;;
     snapContent <- readTextSync snapFilePath ;;
     snapData <-
       try_catch (JSON_parse snapContent)
         (fun e => throw (Error ("Invalid snap file format: " ++ message e))) ;;
     type <- prop (Some snapData) "type" ;;
     if is_string "folder-snap-v3" type
     then unpackV3Snap snapFilePath outputFolder snapData
     else unpackLegacySnap snapFilePath outputFolder)
    (fun e => ret (failure e)).

(** [FolderStats]; the formatted size is floating-point text and is left
    out. *)
Record FolderStats : Type := {
  files : nat;
  directories : nat;
  totalSize : Z
}.

(** [file.size || 0] *)
Definition sizeOf (file : Json.value) : Z :=
  match field "size" file with
  | Some (Json.Num m 0) => m
  | _ => 0%Z
  end.

Definition getFolderStats (folderPath : string) : M FolderStats :=
  found <- existsSync folderPath ;;
  when (negb found) (throw (Error ("Folder does not exist: " ++ folderPath))) ;;
  loadGitignore folderPath ;;
  structure <- walk folderPath ;;
  let files := filter (is_type "file") structure in
  let directories := filter (is_type "directory") structure in
  let totalSize := fold_left (fun sum file => (sum + sizeOf file)%Z) files 0%Z in
  ret {| files := List.length files; directories := List.length directories;
         totalSize := totalSize |}.

(** The result of [validateSnapFile]. *)
Record Validation : Type := {
  valid : bool;
  validationError : option string;
  validationMetadata : option Json.value
}.

Definition invalid (msg : string) : Validation :=
  {| valid := false; validationError := Some msg; validationMetadata := None |}.

Definition validateSnapFile (snapFilePath : string) : M Validation :=
  try_catch
    (found <- existsSync snapFilePath ;;
     if negb found then ret (invalid "Snap file does not exist")
     else
       snapContent <- readTextSync snapFilePath ;;
       parsed <- try_catch (v <- JSON_parse snapContent ;; ret (Some v))
                           (fun _ => ret None) ;;
       match parsed with
       | None => ret (invalid "Invalid JSON format")
       | Some snapData =>
           type <- prop (Some snapData) "type" ;;
           if is_string "folder-snap-v3" type then
             snapDirectory <- prop (Some snapData) "snapDirectory" ;;
             name <- path_arg snapDirectory ;;
             let snapDir := Path.join (Path.dirname snapFilePath) name in
             let metadataPath := Path.join snapDir "metadata.json" in
             snapDirFound <- existsSync snapDir ;;
             metadataFound <- existsSync metadataPath ;;
             if negb snapDirFound || negb metadataFound then
               ret (invalid "Snap directory or metadata file not found")
             else
               metadataContent <- readTextSync metadataPath ;;
               data <- JSON_parse metadataContent ;;
               metadata <- prop (Some data) "metadata" ;;
               ret {| valid := true; validationError := None;
                      validationMetadata := metadata |}
           else
             match extractJson snapContent with
             | None =>
                 ret (invalid "Invalid snap file format. Missing structure markers.")
             | Some jsonContent =>
                 data <- JSON_parse jsonContent ;;
                 metadata <- prop (Some data) "metadata" ;;
                 structure <- prop (Some data) "structure" ;;
                 if negb (Json.truthy_opt metadata) || negb (Json.truthy_opt structure)
                 then ret (invalid "Invalid snap file structure. Missing metadata or structure.")
                 else ret {| valid := true; validationError := None;
                             validationMetadata := metadata |}
             end
       end)
    (fun e => ret (invalid (message e))).

(** [Date.now()], as the text it gives in a string concatenation. *)
Variable nowMillis : string.

(** [legacySnapPath.replace(/\.snap$/, '_v3.snap')] *)
Definition v3PathOf (legacySnapPath : string) : string :=
  if Js.endsWith ".snap" legacySnapPath
  then String.substring 0 (String.length legacySnapPath - 5) legacySnapPath
       ++ "_v3.snap"
  else legacySnapPath.

(** The loop of [upgradeLegacySnap] over the file items: as in
    [unpackLegacySnap], with no [try] around a file. *)
Definition upgradeFile (tempDir : string) (file : Json.value) : M unit :=
  p <- prop (Some file) "path" ;;
  rel <- path_arg p ;;
  let filePath := Path.join tempDir rel in
  let fileDir := Path.dirname filePath in
  ensureDir fileDir ;;
  content <- inlineContent file ;;
  match content with
  | Some buffer => writeFileSync filePath buffer
  | None => writeTextSync filePath ""
  end.

(** [outputPath || legacySnapPath.replace(/\.snap$/, '_v3.snap')] *)
Definition upgradeOutput (legacySnapPath : string) (outputPath : option string)
  : string :=
  match outputPath with
  | Some p => if String.eqb p "" then v3PathOf legacySnapPath else p
  | None => v3PathOf legacySnapPath
  end.

Definition upgradeTempDir (legacySnapPath : string) : string :=
  Path.join (Path.dirname legacySnapPath) (".temp_upgrade_" ++ nowMillis).

Definition upgradeLegacySnap (legacySnapPath : string)
    (outputPath : option string) : M SnapResult :=
  try_catch
    (textContent <- readTextSync legacySnapPath ;;
     jsonContent <-
       match extractJson textContent with
       | Some j => ret j
       | None =>
           throw (Error "Invalid legacy snap file format. Missing structure markers.")
       end ;;
     data <- JSON_parse jsonContent ;;
     let tempDir := upgradeTempDir legacySnapPath in
     mkdirSync tempDir ;;
     try_catch
       (structure <- prop (Some data) "structure" ;;
        files <- array_filter structure (has_type "file") ;;
        forM_ files (upgradeFile tempDir) ;;
        let v3OutputPath := upgradeOutput legacySnapPath outputPath in
        result <- folderToText tempDir v3OutputPath ;;
        rmSync tempDir ;;
        ret result)
       (fun error =>
          found <- existsSync tempDir ;;
          when found (rmSync tempDir) ;;
          throw error))
    (fun e => ret (failure e)).

End Engine.

End V3.

(* ================================================================== *)
(** * The v2 unit: one JSON document with embedded contents

    [shouldIgnore], [readFolderStructure], [getFolderStats] and the loop
    bodies of the reader have the same text as in the v3 unit; the model
    shares them. *)

Module V2.

Section Engine.

Variable ignores : list string -> string -> bool.
Variable now : string.

Definition defaultIgnores : list string :=
  ["node_modules/"; "venv/"; "*.log"; ".DS_Store"; "Thumbs.db"].

Definition loadGitignore (folderPath : string) : M unit :=
  t <- get_this ;;
  let gitignorePath := Path.join folderPath (gitignoreFile (options t)) in
  V3.ig_add defaultIgnores ;;
  found <- existsSync gitignorePath ;;
  if found then
    gitignoreContent <- readTextSync gitignorePath ;;
    V3.ig_add (Ignore.lines gitignoreContent)
  else ret tt.

Definition readFolderStructure := V3.readFolderStructure ignores.

Definition walk (folderPath : string) : M (list Json.value) :=
  d <- get_disk ;;
  t <- get_this ;;
  match Fs.lookup (Path.segments folderPath) d with
  | Some (Fs.Dir entries) => ret (readFolderStructure t "" (Fs.Dir entries))
  | Some (Fs.File _) => throw (SystemError Fs.ENOTDIR "scandir" folderPath)
  | None => throw (SystemError Fs.ENOENT "scandir" folderPath)
  end.

(** [buffer.includes(0)] *)
Definition includes0 (buffer : Buffer) : bool :=
  existsb (Byte.eqb x00) buffer.

Definition delete_field (k : string) (item : Json.value) : Json.value :=
  match item with
  | Json.Obj fields => Json.Obj (Json.remove k fields)
  | _ => item
  end.

(** The body of the [try] once the file is read: content, encoding, and
    [delete file.contentIndex]. *)
Definition attachContent (file : Json.value) (buffer : Buffer) : Json.value :=
  let isBinary := includes0 buffer in
  let file1 :=
    if isBinary then
      V3.set_field "encoding" (Json.Str "base64")
        (V3.set_field "content" (Json.Str (Base64.toString buffer)) file)
    else
      V3.set_field "encoding" (Json.Str "utf8")
        (V3.set_field "content" (Json.Str (Utf8.toString buffer)) file) in
  delete_field "contentIndex" file1.

(** The [catch] branch. *)
Definition emptyContent (file : Json.value) : Json.value :=
  delete_field "contentIndex"
    (V3.set_field "encoding" (Json.Str "utf8")
       (V3.set_field "content" (Json.Str "") file)).

(** One round of the loop over the file items, which are updated in place. *)
Definition embedContent (folderPath : string) (file : Json.value)
  : M Json.value :=
  if V3.is_type "file" file then
    let filePath := Path.join folderPath (V3.display (V3.field "path" file)) in
    try_catch
      (buffer <- readFileSync filePath ;; ret (attachContent file buffer))
      (fun _ => ret (emptyContent file))
  else ret file.

(** [{ contentIndex, contentFile, ...fileItem } = item; fileItem] *)
Definition snapItem (item : Json.value) : Json.value :=
  if V3.is_type "file" item
  then delete_field "contentIndex" (delete_field "contentFile" item)
  else item.

(** The document handed to [JSON.stringify]. *)
Definition snapDataOf (metadata : Json.value) (structure : list Json.value)
  : Json.value :=
  Json.Obj [("metadata", metadata);
            ("structure", Json.Arr (map snapItem structure))].

Definition folderToText (folderPath outputPath : string) : M SnapResult :=
  try_catch
    (found <- existsSync folderPath ;;
     when (negb found)
       (throw (Error ("Source folder does not exist: " ++ folderPath))) ;;
     isDir <- isDirectory folderPath ;;
     when (negb isDir)
       (throw (Error ("Source path is not a directory: " ++ folderPath))) ;;
     loadGitignore folderPath ;;
     structure <- walk folderPath ;;
     let metadata := V3.makeMetadata now folderPath structure in
     let outputDir := Path.dirname outputPath in
     outputDirFound <- existsSync outputDir ;;
     when (negb outputDirFound) (mkdirSync outputDir) ;;
     structure' <- mapM (embedContent folderPath) structure ;;
     let snapData := snapDataOf metadata structure' in
     let snapContent := Json.stringify snapData in
     writeTextSync outputPath snapContent ;;
     ret {| success := true; outputPath := Some outputPath;
            outputFolder := None; stats := Some metadata; error := None |})
    (fun e => ret (failure e)).

Definition textToFolder (snapFilePath outputFolder : string) : M SnapResult :=
  try_catch
    (found <- existsSync snapFilePath ;;
     when (negb found)
       (throw (Error ("Snap file does not exist: " ++ snapFilePath))) ;;
     snapContent <- readTextSync snapFilePath ;;
     snapData <-
       try_catch (JSON_parse snapContent)
         (fun e => throw (Error ("Invalid snap file format: " ++ message e))) ;;
     metadata <- prop (Some snapData) "metadata" ;;
     structure <- prop (Some snapData) "structure" ;;
     when (negb (Json.truthy_opt metadata) || negb (Json.truthy_opt structure))
       (throw (Error "Invalid snap file structure. Missing metadata or structure.")) ;;
     outputFound <- existsSync outputFolder ;;
     when (negb outputFound) (mkdirSync outputFolder) ;;
     directories <- array_filter structure (has_type "directory") ;;
     forM_ directories (V3.restoreDirectory outputFolder) ;;
     files <- array_filter structure (has_type "file") ;;
     forM_ files (V3.restoreFileInline outputFolder) ;;
     _ <- prop metadata "timestamp" ;;
     ret {| success := true; outputPath := None;
            outputFolder := Some outputFolder; stats := metadata;
            error := None |})
    (fun e => ret (failure e)).

Definition validateSnapFile (snapFilePath : string) : M V3.Validation :=
  try_catch
    (found <- existsSync snapFilePath ;;
     if negb found then ret (V3.invalid "Snap file does not exist")
     else
       snapContent <- readTextSync snapFilePath ;;
       parsed <- try_catch (v <- JSON_parse snapContent ;; ret (Some v))
                           (fun _ => ret None) ;;
       match parsed with
       | None => ret (V3.invalid "Invalid JSON format")
       | Some snapData =>
           metadata <- prop (Some snapData) "metadata" ;;
           structure <- prop (Some snapData) "structure" ;;
           if negb (Json.truthy_opt metadata) || negb (Json.truthy_opt structure)
           then ret (V3.invalid "Invalid snap file structure. Missing metadata or structure.")
           else ret {| V3.valid := true; V3.validationError := None;
                       V3.validationMetadata := metadata |}
       end)
    (fun e => ret (V3.invalid (message e))).

Definition getFolderStats (folderPath : string) : M V3.FolderStats :=
  found <- existsSync folderPath ;;
  when (negb found) (throw (Error ("Folder does not exist: " ++ folderPath))) ;;
  loadGitignore folderPath ;;
  structure <- walk folderPath ;;
  let files := filter (V3.is_type "file") structure in
  let directories := filter (V3.is_type "directory") structure in
  let totalSize :=
    fold_left (fun sum file => (sum + V3.sizeOf file)%Z) files 0%Z in
  ret {| V3.files := List.length files;
         V3.directories := List.length directories;
         V3.totalSize := totalSize |}.

End Engine.

End V2.

(* ================================================================== *)
(** * The legacy unit of [src/index.ts]: the sentinel-wrapped writer *)

Module Legacy.

Section Engine.

Variable ignores : list string -> string -> bool.
Variable now : string.

Definition fileItem (relativePath item content : string) (size : nat)
  : Json.value :=
  Json.Obj [("type", Json.Str "file"); ("path", Json.Str relativePath);
            ("name", Json.Str item); ("content", Json.Str content);
            ("size", Json.nat_num size)].

(** As in the v3 unit, but a file item carries its text. *)
Fixpoint readFolderStructure (t : FolderSnap) (rel : string) (n : Fs.node)
  : list Json.value :=
  match n with
  | Fs.File _ => []
  | Fs.Dir entries =>
      (fix loop (items : list (string * Fs.node)) (structure : list Json.value)
         : list Json.value :=
         match items with
         | [] => structure
         | (item, child) :: rest =>
             let relativePath := Path.child rel item in
             if V3.shouldIgnore ignores t relativePath then loop rest structure
             else
               match child with
               | Fs.Dir _ =>
                   let subStructure := readFolderStructure t relativePath child in
                   loop rest
                     ((structure ++ [V3.directoryItem relativePath item])
                        ++ subStructure)%list
               | Fs.File data =>
                   loop rest
                     (structure
                        ++ [fileItem relativePath item (Utf8.toString data)
                              (List.length data)])%list
               end
         end) entries []
  end.

Definition walk (folderPath : string) : M (list Json.value) :=
  d <- get_disk ;;
  t <- get_this ;;
  match Fs.lookup (Path.segments folderPath) d with
  | Some (Fs.Dir entries) => ret (readFolderStructure t "" (Fs.Dir entries))
  | Some (Fs.File _) => throw (SystemError Fs.ENOTDIR "scandir" folderPath)
  | None => throw (SystemError Fs.ENOENT "scandir" folderPath)
  end.

Definition nl : string := Json.newline.

Definition folderToText (folderPath outputPath : string) : M SnapResult :=
  try_catch
    (V3.loadGitignore folderPath ;;
     structure <- walk folderPath ;;
     let totalFiles := V3.count "file" structure in
     let totalDirectories := V3.count "directory" structure in
     let metadata :=
       Json.Obj [("timestamp", Json.Str now);
                 ("sourceFolder", Json.Str (Path.basename folderPath));
                 ("totalFiles", Json.nat_num totalFiles);
                 ("totalDirectories", Json.nat_num totalDirectories)] in
     let output :=
       Json.Obj [("metadata", metadata); ("structure", Json.Arr structure)] in
     let textContent :=
       "# Folder Snap Export" ++ nl
       ++ "# Generated on: " ++ now ++ nl
       ++ "# Source: " ++ Path.basename folderPath ++ nl
       ++ "# Files: " ++ Js.of_nat totalFiles ++ ", Directories: "
       ++ Js.of_nat totalDirectories ++ nl ++ nl
       ++ "<FOLDER_SNAP_START>" ++ nl
       ++ Json.stringify output
       ++ nl ++ "<FOLDER_SNAP_END>" ++ nl in
     writeTextSync outputPath textContent ;;
     ret {| success := true; outputPath := Some outputPath;
            outputFolder := None; stats := Some metadata; error := None |})
    (fun e => ret (failure e)).

(** The loops of the legacy reader have no [try] of their own. *)
Definition restoreDirectory (outputFolder : string) (dir : Json.value)
  : M unit :=
  p <- prop (Some dir) "path" ;;
  rel <- path_arg p ;;
  mkdirSync (Path.join outputFolder rel).

(** [fs.writeFileSync(filePath, file.content, encoding)], which rejects data
    that is no string. *)
Definition restoreFile (outputFolder : string) (file : Json.value) : M unit :=
  p <- prop (Some file) "path" ;;
  rel <- path_arg p ;;
  let filePath := Path.join outputFolder rel in
  let fileDir := Path.dirname filePath in
  V3.ensureDir fileDir ;;
  content <- prop (Some file) "content" ;;
  match content with
  | Some (Json.Str text) => writeTextSync filePath text
  | _ => throw (TypeError "The data argument must be of type string")
  end.

Definition textToFolder (snapFilePath outputFolder : string) : M SnapResult :=
  try_catch
    (textContent <- readTextSync snapFilePath ;;
     jsonContent <-
       match V3.extractJson textContent with
       | Some j => ret j
       | None =>
           throw (Error "Invalid snap file format. Missing structure markers.")
       end ;;
     data <- JSON_parse jsonContent ;;
     outputFound <- existsSync outputFolder ;;
     when (negb outputFound) (mkdirSync outputFolder) ;;
     structure <- prop (Some data) "structure" ;;
     directories <- array_filter structure (has_type "directory") ;;
     forM_ directories (restoreDirectory outputFolder) ;;
     files <- array_filter structure (has_type "file") ;;
     forM_ files (restoreFile outputFolder) ;;
     metadata <- prop (Some data) "metadata" ;;
     _ <- prop metadata "timestamp" ;;
     ret {| success := true; outputPath := None;
            outputFolder := Some outputFolder; stats := metadata;
            error := None |})
    (fun e => ret (failure e)).

(** [getFolderStats] of the legacy unit: no check that the folder exists. *)
Definition getFolderStats (folderPath : string) : M V3.FolderStats :=
  V3.loadGitignore folderPath ;;
  structure <- walk folderPath ;;
  let files := filter (V3.is_type "file") structure in
  let directories := filter (V3.is_type "directory") structure in
  let totalSize :=
    fold_left (fun sum file => (sum + V3.sizeOf file)%Z) files 0%Z in
  ret {| V3.files := List.length files;
         V3.directories := List.length directories;
         V3.totalSize := totalSize |}.

End Engine.

End Legacy.

(* ================================================================== *)
(** * Vocabulary of the statements *)

(** ** Computations *)

(** A computation that ends with a value in every state. *)
Definition never_throws {A} (m : M A) : Prop :=
  forall st, exists a st', m st = (Return a, st').

(** Every value the computation returns satisfies [P]. *)
Definition returns {A} (P : A -> Prop) (m : M A) : Prop :=
  forall st a st', m st = (Return a, st') -> P a.

(** A computation that leaves the instance as it is. *)
Definition keeps_this {A} (m : M A) : Prop :=
  forall st, this (snd (m st)) = this st.

(** A result that tells success from failure. *)
Definition tagged (r : SnapResult) : Prop :=
  (success r = true /\ error r = None)
  \/ (success r = false /\ exists msg, error r = Some msg).

Definition tagged_validation (v : V3.Validation) : Prop :=
  (V3.valid v = true /\ V3.validationError v = None)
  \/ (V3.valid v = false /\ exists msg, V3.validationError v = Some msg).

Definition resultOf (o : outcome SnapResult) : SnapResult :=
  match o with
  | Return r => r
  | Throw e => failure e
  end.

(** ** Contents *)

(** What the reader writes for the outcome of [V3.inlineContent]: the
    decoded buffer, or the empty text. *)
Definition written (content : option Buffer) : Buffer :=
  match content with
  | Some buffer => buffer
  | None => Utf8.fromString ""
  end.

(** ** Format detection *)



(** ** Rules of an instance *)

(** The rules of the ignore file at the root of [folderPath]. *)
Definition folderRules (st : State) (folderPath : string) : list string :=
  match Fs.lookup
          (Path.segments (Path.join folderPath (gitignoreFile (options (this st)))))
          (disk st) with
  | Some (Fs.File data) => Ignore.lines (Utf8.toString data)
  | _ => []
  end.

(** The rule set after [loadGitignore(folderPath)] has run in [st]. *)
Definition rulesAfterLoad (st : State) (folderPath : string) : list string :=
  (ig (this st) ++ V3.defaultIgnores ++ folderRules st folderPath)%list.

Definition withRules (st : State) (rules : list string) : State :=
  {| disk := disk st;
     this := {| options := options (this st); ig := rules |} |}.

(** ** The walk *)



(** The loop of [V3.readFolderStructure] over the listing of a directory,
    under a name of its own (see [readFolderStructure_dir]). *)
Definition walkLoop (ignores : list string -> string -> bool) (t : FolderSnap)
    (rel : string) :=
  fix loop (items : list (string * Fs.node)) (structure : list Json.value)
    : list Json.value :=
    match items with
    | [] => structure
    | (item, child) :: rest =>
        let relativePath := Path.child rel item in
        if V3.shouldIgnore ignores t relativePath then loop rest structure
        else
          match child with
          | Fs.Dir _ =>
              loop rest
                ((structure ++ [V3.directoryItem relativePath item])
                   ++ V3.readFolderStructure ignores t relativePath child)%list
          | Fs.File data =>
              loop rest
                (structure
                   ++ [V3.fileItem relativePath item (List.length data)
                         (List.length (filter (V3.is_type "file") structure))])%list
          end
    end.

(** [kept ignores t rel n p x]: as [holds], and [shouldIgnore] rejects
    neither [x] nor a directory on the way from [n] to it. *)
Inductive kept (ignores : list string -> string -> bool) (t : FolderSnap)
  : string -> Fs.node -> string -> Fs.node -> Prop :=
| kept_entry rel entries name c :
    In (name, c) entries ->
    V3.shouldIgnore ignores t (Path.child rel name) = false ->
    kept ignores t rel (Fs.Dir entries) (Path.child rel name) c
| kept_deeper rel entries name sub p x :
    In (name, Fs.Dir sub) entries ->
    V3.shouldIgnore ignores t (Path.child rel name) = false ->
    kept ignores t (Path.child rel name) (Fs.Dir sub) p x ->
    kept ignores t rel (Fs.Dir entries) p x.

Definition kindOf (x : Fs.node) : string :=
  match x with
  | Fs.File _ => "file"
  | Fs.Dir _ => "directory"
  end.

(** [item] is the item of the node [x] at the relative path [p]. *)
Definition describes (item : Json.value) (p : string) (x : Fs.node) : Prop :=
  V3.field "path" item = Some (Json.Str p)
  /\ V3.field "type" item = Some (Json.Str (kindOf x))
  /\ match x with
     | Fs.File data =>
         V3.field "size" item = Some (Json.nat_num (List.length data))
     | Fs.Dir _ => V3.field "size" item = None
     end.

(** [item] is the item of a node that is kept. *)
Definition from_kept (ignores : list string -> string -> bool) (t : FolderSnap)
    (rel : string) (n : Fs.node) (item : Json.value) : Prop :=
  exists p x, kept ignores t rel n p x /\ describes item p x.

(** The components of a relative path. *)
Definition components (p : string) : list string := Js.split "/" p.

(** Not a hidden name. *)
Definition visible (s : string) : bool := negb (Js.startsWith "." s).


(** [generateContentFilename(file.path, file.contentIndex)] of a file item *)
Definition sidecarName (file : Json.value) : string :=
  V3.generateContentFilename (V3.display (V3.field "path" file))
                             (V3.field "contentIndex" file).

(** ** Listings and paths *)

Fixpoint slash_free (s : string) : bool :=
  match s with
  | EmptyString => true
  | String c rest => negb (Ascii.eqb c "/") && slash_free rest
  end.

(** A name as [readdirSync] returns it: not empty, no separator. *)
Definition name_ok (s : string) : bool :=
  negb (String.eqb s "") && slash_free s.

Fixpoint distinct (names : list string) : bool :=
  match names with
  | [] => true
  | n :: rest => negb (existsb (String.eqb n) rest) && distinct rest
  end.

(** A tree whose listings are listings of directories: proper names, no
    name twice in one directory. *)
Fixpoint listing_ok (n : Fs.node) : bool :=
  match n with
  | Fs.File _ => true
  | Fs.Dir entries =>
      distinct (map fst entries)
      && forallb (fun e => name_ok (fst e) && listing_ok (snd e)) entries
  end.

Definition itemPath (item : Json.value) : string :=
  V3.display (V3.field "path" item).

(** [p] lies below the directory path [dir]: it is [dir], the separator,
    and more. *)
Definition under (dir p : string) : Prop :=
  exists rest, p = dir ++ "/" ++ rest.

(** Empty, or starting with the separator. *)
Definition slashy (s : string) : Prop :=
  s = "" \/ exists t, s = String "/" t.

(** [p] is [rel/name] or lies below it. *)
Definition headed (rel name p : string) : Prop :=
  exists tail, p = Path.child rel name ++ tail /\ slashy tail.

(** No directory item stands at or after an item below it. *)
Definition preorder (l : list Json.value) : Prop :=
  forall i j d e,
    nth_error l j = Some e -> nth_error l i = Some d -> j <= i ->
    V3.is_type "directory" d = true ->
    under (itemPath d) (itemPath e) -> False.

(** Every item has its head among [names]. *)
Definition heads (rel : string) (names : list string) (l : list Json.value)
  : Prop :=
  Forall (fun x => exists name,
              In name names /\ name_ok name = true
              /\ headed rel name (itemPath x)) l.

(** ** States *)

(** A computation that takes every state to one related to it by [R]. *)
Definition preserves (R : State -> State -> Prop) {A} (m : M A) : Prop :=
  forall st, R st (snd (m st)).

(** The file system is the same. *)
Definition same_disk (a b : State) : Prop := disk b = disk a.

(** The file system and the options are the same: the rule set alone may
    differ. *)
Definition only_rules_differ (a b : State) : Prop :=
  disk b = disk a /\ options (this b) = options (this a).

(** [n'] has every path of [n], with a node of the same kind. *)
Definition extends (n n' : Fs.node) : Prop :=
  forall segs x,
    Fs.lookup segs n = Some x ->
    exists y, Fs.lookup segs n' = Some y /\ kindOf y = kindOf x.

(** Nothing goes away: the instance is the same, and a path that leads to a
    file or to a directory still does. *)
Definition nothing_lost (a b : State) : Prop :=
  this b = this a
  /\ forall segs x,
      Fs.lookup segs (disk a) = Some x ->
      exists y, Fs.lookup segs (disk b) = Some y /\ kindOf y = kindOf x.

(** ** Names *)

(** The characters that [generateContentFilename] lets through. *)
Definition safe_char (c : ascii) : bool :=
  let n := N_of_ascii c in
  (((97 <=? n) && (n <=? 122)) || ((65 <=? n) && (n <=? 90))
   || ((48 <=? n) && (n <=? 57)) || (n =? 46) || (n =? 95) || (n =? 45))%N.

Definition safe_name (s : string) : bool := forallb safe_char (Js.chars s).

(** ** Archives *)


(* ================================================================== *)
(** * Sample file systems *)

Definition bytes (s : string) : Buffer := list_byte_of_string s.

Definition sampleClock : string := "2024-01-01T00:00:00.000Z".

(** A new instance, with the default options, on the disk [d]. *)
Definition freshOn (d : Fs.node) : State :=
  {| disk := d; this := constructor defaultOptions |}.


Definition binarySample : Buffer := [x89; x50; x00; xff; x0a].

Definition textSample : Buffer :=
  (list_byte_of_string "caf" ++ [xc3; xa9; x0a])%list.

(** A folder with one sub-directory. *)
Definition sampleProject : Fs.node :=
  Fs.Dir [("src", Fs.Dir [("a.txt", Fs.File (bytes "hello"))]);
          ("README.md", Fs.File (bytes "# hi"))].

(** The folder as [proj], next to a file that is no archive. *)
Definition projectDisk : Fs.node :=
  Fs.Dir [("proj", sampleProject);
          ("broken.snap", Fs.File (bytes "not an archive"))].

(** The state after the legacy writer has packed [proj] into [proj.snap]. *)
Definition legacyArchived : State :=
  snd (Legacy.folderToText Ignore.ignores sampleClock "proj" "proj.snap"
         (freshOn projectDisk)).

(** Two files called [c], one in [a/b] and one in [a_b]. *)
Definition twinProject : Fs.node :=
  Fs.Dir [("a", Fs.Dir [("b", Fs.Dir [("c", Fs.File (bytes "first"))])]);
          ("a_b", Fs.Dir [("c", Fs.File (bytes "second"))])].

Definition twinDisk : Fs.node := Fs.Dir [("proj", twinProject)].

Definition twinPacked : outcome SnapResult * State :=
  V3.folderToText Ignore.ignores sampleClock "proj" "proj.snap"
                  (freshOn twinDisk).

Definition twinRestored : outcome SnapResult * State :=
  V3.textToFolder "proj.snap" "restored" (freshOn (disk (snd twinPacked))).


(** A folder with a binary file and a text file. *)
Definition assetsDisk : Fs.node :=
  Fs.Dir [("assets", Fs.Dir [("logo.png", Fs.File binarySample);
                             ("menu.txt", Fs.File textSample)])].



(** The sample folder next to an empty content folder. *)
Definition stagingDisk : Fs.node :=
  Fs.Dir [("proj", sampleProject); ("content", Fs.Dir [])].

Definition sampleMillis : string := "1700000000000".

(** The item of the manifest of [twinPacked] for the file [a/b/c]. *)
Definition twinItem : Json.value :=
  Json.Obj [("type", Json.Str "file"); ("path", Json.Str "a/b/c");
            ("name", Json.Str "c"); ("size", Json.nat_num 5);
            ("contentFile", Json.Str "content_0_a_b_c.bin")].

(* ================================================================== *)
(** * Lemmas on the codecs *)



(** ** base64 *)

















(* ================================================================== *)
(** * Strings *)

Lemma append_assoc (a b c : string) : (a ++ b) ++ c = a ++ (b ++ c).
Proof. induction a as [|x a IH]; cbn; [reflexivity | now rewrite IH]. Qed.

Lemma append_cancel (a x y : string) : a ++ x = a ++ y -> x = y.
Proof.
  induction a as [|c a IH]; cbn; [auto|]. intros H. inversion H. auto.
Qed.

Lemma length_append (a b : string) :
  String.length (a ++ b) = String.length a + String.length b.
Proof. induction a as [|c a IH]; cbn; [reflexivity | now rewrite IH]. Qed.

(* ================================================================== *)
(** * Properties of objects *)

Lemma lookup_assign_same k v fields :
  Json.lookup k (Json.assign k v fields) = Some v.
Proof.
  induction fields as [|[k' v'] rest IH]; cbn.
  - now rewrite String.eqb_refl.
  - destruct (String.eqb k k') eqn:E; cbn; rewrite ?String.eqb_refl, ?E; auto.
Qed.



Lemma restoreFileInline_writes outputFolder file st :
  V3.restoreFileInline outputFolder file st =
  (p <- prop (Some file) "path" ;;
   rel <- path_arg p ;;
   let filePath := Path.join outputFolder rel in
   try_catch
     (V3.ensureDir (Path.dirname filePath) ;;
      content <- V3.inlineContent file ;;
      writeFileSync filePath (written content))
     (fun _ => ret tt))%monad st.
Proof.
  unfold V3.restoreFileInline, bind, try_catch.
  destruct (prop (Some file) "path" st) as [[p|e] st1]; [|reflexivity].
  destruct (path_arg p st1) as [[rel|e] st2]; [|reflexivity].
  cbv zeta.
  destruct (V3.ensureDir _ st2) as [[[]|e] st3]; [|reflexivity].
  destruct (V3.inlineContent file st3) as [[[buffer|]|e] st4]; reflexivity.
Qed.

(* ================================================================== *)
(** * Content encoding of the v2 format *)









(* ================================================================== *)
(** * Results and exceptions of the public operations *)

Lemma never_throws_try_catch {A} (body : M A) (handler : exn -> M A) :
  (forall e, never_throws (handler e)) -> never_throws (try_catch body handler).
Proof.
  intros Hh st. unfold try_catch.
  destruct (body st) as [[a|e] st1]; [now exists a, st1 | apply Hh].
Qed.

Lemma never_throws_ret {A} (a : A) : never_throws (ret a).
Proof. intros st. now exists a, st. Qed.

Lemma returns_ret {A} (P : A -> Prop) (a : A) : P a -> returns P (ret a).
Proof. intros Ha st b st' H. inversion H. now subst. Qed.

Lemma returns_throw {A} (P : A -> Prop) (e : exn) : returns P (throw e).
Proof. intros st b st' H. discriminate H. Qed.

Lemma returns_bind {A B} (P : B -> Prop) (m : M A) (k : A -> M B) :
  (forall a, returns P (k a)) -> returns P (bind m k).
Proof.
  intros Hk st b st' H. unfold bind in H.
  destruct (m st) as [[a|e] st1]; [eapply Hk; eassumption | discriminate].
Qed.

Lemma returns_try_catch {A} (P : A -> Prop) (body : M A) (handler : exn -> M A) :
  returns P body -> (forall e, returns P (handler e)) ->
  returns P (try_catch body handler).
Proof.
  intros Hb Hh st a st' H. unfold try_catch in H.
  destruct (body st) as [[b|e] st1] eqn:E.
  - inversion H; subst. eapply Hb; eassumption.
  - eapply Hh; eassumption.
Qed.

Lemma tagged_failure (e : exn) : tagged (failure e).
Proof. right. split; [reflexivity | now exists (message e)]. Qed.

Ltac returns_step :=
  lazymatch goal with
  | |- returns _ (bind _ _) => apply returns_bind; intros ?
  | |- returns _ (try_catch _ _) => apply returns_try_catch; [|intros ?]
  | |- returns _ (throw _) => apply returns_throw
  | |- returns _ (ret _) => apply returns_ret
  | |- returns _ (if ?b then _ else _) => destruct b
  | |- returns _ (match ?x with _ => _ end) => destruct x
  end.

Lemma unpackV3Snap_tagged a b snapData :
  returns tagged (V3.unpackV3Snap a b snapData).
Proof.
  unfold V3.unpackV3Snap. repeat returns_step;
    first [apply tagged_failure | left; split; reflexivity].
Qed.

Lemma unpackLegacySnap_tagged a b :
  returns tagged (V3.unpackLegacySnap a b).
Proof.
  unfold V3.unpackLegacySnap. repeat returns_step;
    first [apply tagged_failure | left; split; reflexivity].
Qed.

Lemma textToFolder_tagged a b : returns tagged (V3.textToFolder a b).
Proof.
  unfold V3.textToFolder. repeat returns_step;
    first [apply tagged_failure | apply unpackV3Snap_tagged
          | apply unpackLegacySnap_tagged].
Qed.

Lemma folderToText_tagged ignores now a b :
  returns tagged (V3.folderToText ignores now a b).
Proof.
  unfold V3.folderToText. repeat returns_step;
    first [apply tagged_failure | left; split; reflexivity].
Qed.

Lemma validateSnapFile_tagged a :
  returns tagged_validation (V3.validateSnapFile a).
Proof.
  unfold V3.validateSnapFile. repeat returns_step;
    first [ left; split; reflexivity
          | right; split; [reflexivity | eexists; reflexivity] ].
Qed.

Lemma existsSync_spec p st :
  existsSync p st =
  (Return (match Fs.lookup (Path.segments p) (disk st) with
           | Some _ => true
           | None => false
           end), st).
Proof. reflexivity. Qed.

(** C7 (as amended).  [folderToText], [textToFolder] and [validateSnapFile]
    end with a result in every state, never with an exception, and the
    result tells success from failure.  [getFolderStats] has no failure
    result: for a folder that does not exist it throws an [Error]. *)
Theorem public_operations_results
    (ignores : list string -> string -> bool) (now : string)
    (a b : string) (st : State) :
  (exists r st', V3.folderToText ignores now a b st = (Return r, st')
                 /\ tagged r)
  /\ (exists r st', V3.textToFolder a b st = (Return r, st') /\ tagged r)
  /\ (exists v st', V3.validateSnapFile a st = (Return v, st')
                    /\ tagged_validation v)
  /\ (Fs.lookup (Path.segments a) (disk st) = None ->
      V3.getFolderStats ignores a st
      = (Throw (Error ("Folder does not exist: " ++ a)), st)).
Proof.
  repeat split.
  - assert (Hn : never_throws (V3.folderToText ignores now a b)).
    { unfold V3.folderToText. apply never_throws_try_catch.
      intros e. apply never_throws_ret. }
    destruct (Hn st) as (r & st' & Hr). exists r, st'. split; [exact Hr|].
    eapply folderToText_tagged; eassumption.
  - assert (Hn : never_throws (V3.textToFolder a b)).
    { unfold V3.textToFolder. apply never_throws_try_catch.
      intros e. apply never_throws_ret. }
    destruct (Hn st) as (r & st' & Hr). exists r, st'. split; [exact Hr|].
    eapply textToFolder_tagged; eassumption.
  - assert (Hn : never_throws (V3.validateSnapFile a)).
    { unfold V3.validateSnapFile. apply never_throws_try_catch.
      intros e. apply never_throws_ret. }
    destruct (Hn st) as (r & st' & Hr). exists r, st'. split; [exact Hr|].
    eapply validateSnapFile_tagged; eassumption.
  - intros Hmissing. unfold V3.getFolderStats, bind.
    rewrite existsSync_spec, Hmissing. reflexivity.
Qed.

Lemma public_operations_results_witness :
  V3.getFolderStats Ignore.ignores "missing" (freshOn projectDisk)
  = (Throw (Error "Folder does not exist: missing"), freshOn projectDisk).
Proof.
  exact (proj2 (proj2 (proj2
           (public_operations_results Ignore.ignores sampleClock
              "missing" "out" (freshOn projectDisk)))) eq_refl).
Defined.

(** C7, counterexample.  [getFolderStats] on a path that is a regular file
    lets the ENOTDIR fault of [readdirSync] through, and on a missing path it
    throws: neither call returns a result. *)
Lemma getFolderStats_throws :
  fst (V3.getFolderStats Ignore.ignores "proj/README.md" (freshOn projectDisk))
  = Throw (SystemError Fs.ENOTDIR "scandir" "proj/README.md")
  /\ fst (V3.getFolderStats Ignore.ignores "missing" (freshOn projectDisk))
     = Throw (Error "Folder does not exist: missing").
Proof. split; reflexivity. Qed.

(* ================================================================== *)
(** * Format detection of the reader *)






(** C2, the defect.  An archive written by the legacy writer is no JSON as a
    whole, its markers are in place and the text between them parses; the
    reader [unpackLegacySnap] restores it when called on it, but
    [textToFolder] gives up at the first parse and never calls that reader. *)
Theorem textToFolder_rejects_legacy_archive :
  exists data json v,
    Fs.lookup ["proj.snap"] (disk legacyArchived) = Some (Fs.File data)
    /\ Json.parse (Utf8.toString data) = None
    /\ V3.extractJson (Utf8.toString data) = Some json
    /\ Json.parse json = Some v
    /\ option_map success
         (match fst (V3.unpackLegacySnap "proj.snap" "restored"
                       (freshOn (disk legacyArchived))) with
          | Return r => Some r
          | Throw _ => None
          end) = Some true
    /\ V3.textToFolder "proj.snap" "restored" (freshOn (disk legacyArchived))
       = (Return (failure (Error "Invalid snap file format: Unexpected token in JSON")),
          freshOn (disk legacyArchived)).
Proof.
  do 3 eexists.
  split; [vm_compute; reflexivity|].
  split; [vm_compute; reflexivity|].
  split; [vm_compute; reflexivity|].
  split; [vm_compute; reflexivity|].
  split; vm_compute; reflexivity.
Qed.

(* ================================================================== *)
(** * Sidecar files of the v3 writer *)

(** C6, the defect.  The content index is counted in the array of the
    running call of [readFolderStructure], so it starts again from 0 in
    every directory: the two files called [c] get one sidecar name. *)
Theorem sidecar_names_collide :
  let structure :=
    V3.readFolderStructure Ignore.ignores (constructor defaultOptions) ""
                           twinProject in
  map (fun file => (V3.display (V3.field "path" file), sidecarName file))
      (filter (V3.is_type "file") structure)
  = [("a/b/c", "content_0_a_b_c.bin"); ("a_b/c", "content_0_a_b_c.bin")].
Proof. vm_compute. reflexivity. Qed.

(** C1, the defect.  No path of the tree is ignored, packing and restoring
    both succeed, and the restored [a/b/c] holds the bytes of [a_b/c]. *)
Theorem roundtrip_mixes_contents :
  forallb (fun p => negb (V3.shouldIgnore Ignore.ignores
                            {| options := defaultOptions;
                               ig := V3.defaultIgnores |} p))
          ["a"; "a/b"; "a/b/c"; "a_b"; "a_b/c"] = true
  /\ option_map success
       (match fst twinPacked with Return r => Some r | Throw _ => None end)
     = Some true
  /\ option_map success
       (match fst twinRestored with Return r => Some r | Throw _ => None end)
     = Some true
  /\ Fs.lookup ["proj"; "a"; "b"; "c"] (disk (snd twinRestored))
     = Some (Fs.File (bytes "first"))
  /\ Fs.lookup ["restored"; "a"; "b"; "c"] (disk (snd twinRestored))
     = Some (Fs.File (bytes "second")).
Proof. repeat split; vm_compute; reflexivity. Qed.

Lemma chars_append (a b : string) :
  Js.chars (a ++ b) = (Js.chars a ++ Js.chars b)%list.
Proof.
  unfold Js.chars. induction a as [|c a IH]; cbn; [reflexivity | now rewrite IH].
Qed.

Lemma text_app (x y : list ascii) :
  Js.text (x ++ y)%list = Js.text x ++ Js.text y.
Proof.
  unfold Js.text. induction x as [|c x IH]; cbn; [reflexivity | now rewrite IH].
Qed.

Lemma prefix_append (x y : string) : String.prefix x (x ++ y) = true.
Proof.
  induction x as [|c x IH]; cbn.
  - now destruct y.
  - destruct (ascii_dec c c); [exact IH | congruence].
Qed.

Lemma endsWith_append (p suffix : string) :
  Js.endsWith suffix (p ++ suffix) = true.
Proof.
  unfold Js.endsWith. rewrite chars_append, rev_app_distr, text_app.
  apply prefix_append.
Qed.

Lemma substring_append (p q : string) :
  String.substring 0 (String.length p) (p ++ q) = p.
Proof.
  induction p as [|c p IH]; cbn.
  - now destruct q.
  - now rewrite IH.
Qed.

(** For an output path with the suffix, the sidecar directory is the path
    with [_snap] in place of [.snap]; any other path is left as it is. *)
Lemma snapDirOf_snap (p : string) : V3.snapDirOf (p ++ ".snap") = p ++ "_snap".
Proof.
  unfold V3.snapDirOf. rewrite endsWith_append, length_append.
  cbn [String.length]. rewrite Nat.add_sub. now rewrite substring_append.
Qed.

Lemma snapDirOf_other (p : string) :
  Js.endsWith ".snap" p = false -> V3.snapDirOf p = p.
Proof. unfold V3.snapDirOf. now intros ->. Qed.

(** C8, the defect.  For an output path without the [.snap] suffix the
    replacement changes nothing: the sidecar directory is the output path
    itself, and writing the reference file onto that directory fails. *)
Theorem snapDir_of_other_suffix :
  V3.snapDirOf "backups/proj.snap" = "backups/proj_snap"
  /\ V3.snapDirOf "backup" = "backup"
  /\ fst (V3.folderToText Ignore.ignores sampleClock "proj" "backup"
            (freshOn projectDisk))
     = Return (failure (SystemError Fs.EISDIR "open" "backup"))
  /\ Fs.lookup ["backup_snap"]
       (disk (snd (V3.folderToText Ignore.ignores sampleClock "proj" "backup"
                     (freshOn projectDisk)))) = None
  /\ option_map (fun n => match n with Fs.Dir _ => true | Fs.File _ => false end)
       (Fs.lookup ["backup"]
          (disk (snd (V3.folderToText Ignore.ignores sampleClock "proj" "backup"
                        (freshOn projectDisk))))) = Some true.
Proof. repeat split; vm_compute; reflexivity. Qed.

(* ================================================================== *)
(** * The rule set of an instance *)

Lemma loadGitignore_returns folderPath st st' :
  V3.loadGitignore folderPath st = (Return tt, st') ->
  st' = withRules st (rulesAfterLoad st folderPath).
Proof.
  unfold V3.loadGitignore, V3.ig_add, bind, get_this, put_this, withRules,
    rulesAfterLoad, folderRules.
  rewrite existsSync_spec. cbn [disk this options ig].
  destruct (Fs.lookup _ (disk st)) as [[data|entries]|] eqn:Hl.
  - unfold readTextSync, readFileSync, bind, get_disk. cbn [disk].
    rewrite Hl. cbn. intros H. inversion H. now rewrite <- app_assoc.
  - unfold readTextSync, readFileSync, bind, get_disk. cbn [disk].
    rewrite Hl. cbn. discriminate.
  - cbn. intros H. inversion H. reflexivity.
Qed.

Lemma keeps_this_ret {A} (a : A) : keeps_this (ret a).
Proof. intros st. reflexivity. Qed.

Lemma keeps_this_throw {A} (e : exn) : keeps_this (@throw A e).
Proof. intros st. reflexivity. Qed.

Lemma keeps_this_bind {A B} (m : M A) (k : A -> M B) :
  keeps_this m -> (forall a, keeps_this (k a)) -> keeps_this (bind m k).
Proof.
  intros Hm Hk st. unfold bind. specialize (Hm st).
  destruct (m st) as [[a|e] st1]; cbn in *; [|exact Hm].
  now rewrite Hk.
Qed.

Lemma keeps_this_try_catch {A} (body : M A) (handler : exn -> M A) :
  keeps_this body -> (forall e, keeps_this (handler e)) ->
  keeps_this (try_catch body handler).
Proof.
  intros Hb Hh st. unfold try_catch. specialize (Hb st).
  destruct (body st) as [[a|e] st1]; cbn in *; [exact Hb|].
  now rewrite Hh.
Qed.

Lemma keeps_this_get_disk : keeps_this get_disk.
Proof. intros st. reflexivity. Qed.

Lemma keeps_this_get_this : keeps_this get_this.
Proof. intros st. reflexivity. Qed.

Lemma keeps_this_put_disk d : keeps_this (put_disk d).
Proof. intros st. reflexivity. Qed.

Lemma keeps_this_mapM {A B} (f : A -> M B) (l : list A) :
  (forall x, keeps_this (f x)) -> keeps_this (mapM f l).
Proof.
  intros Hf. induction l as [|x rest IH]; cbn [mapM].
  - apply keeps_this_ret.
  - apply keeps_this_bind; [apply Hf|]. intros y.
    apply keeps_this_bind; [exact IH|]. intros ys. apply keeps_this_ret.
Qed.

Ltac keeps_step :=
  lazymatch goal with
  | |- keeps_this (bind _ _) => apply keeps_this_bind; [|intros ?]
  | |- keeps_this (try_catch _ _) => apply keeps_this_try_catch; [|intros ?]
  | |- keeps_this (throw _) => apply keeps_this_throw
  | |- keeps_this (ret _) => apply keeps_this_ret
  | |- keeps_this get_disk => apply keeps_this_get_disk
  | |- keeps_this get_this => apply keeps_this_get_this
  | |- keeps_this (put_disk _) => apply keeps_this_put_disk
  | |- keeps_this (mapM _ _) => apply keeps_this_mapM; intros ?
  | |- keeps_this (when ?b _) => unfold when; destruct b
  | |- keeps_this (if ?b then _ else _) => destruct b
  | |- keeps_this (match ?x with _ => _ end) => destruct x
  | |- keeps_this (existsSync _) => unfold existsSync
  | |- keeps_this (isDirectory _) => unfold isDirectory
  | |- keeps_this (readFileSync _) => unfold readFileSync
  | |- keeps_this (writeFileSync _ _) => unfold writeFileSync
  | |- keeps_this (writeTextSync _ _) => unfold writeTextSync
  | |- keeps_this (mkdirSync _) => unfold mkdirSync
  | |- keeps_this (rmSync _) => unfold rmSync
  | |- keeps_this (V3.walk _ _) => unfold V3.walk
  | |- keeps_this (V3.writeContent _ _ _) => unfold V3.writeContent
  end.

Lemma keeps_this_run {A} (m : M A) st r st' :
  keeps_this m -> m st = (r, st') -> this st' = this st.
Proof. intros Hk H. specialize (Hk st). now rewrite H in Hk. Qed.

Lemma walk_returns ignores folderPath st structure st' :
  V3.walk ignores folderPath st = (Return structure, st') ->
  st' = st
  /\ exists entries,
      Fs.lookup (Path.segments folderPath) (disk st) = Some (Fs.Dir entries)
      /\ structure = V3.readFolderStructure ignores (this st) "" (Fs.Dir entries).
Proof.
  unfold V3.walk, bind, get_disk, get_this.
  destruct (Fs.lookup _ (disk st)) as [[data|entries]|]; cbn; try discriminate.
  intros H. inversion H. split; [reflexivity|]. now exists entries.
Qed.

Lemma getFolderStats_returns ignores folderPath st stats st' :
  V3.getFolderStats ignores folderPath st = (Return stats, st') ->
  st' = withRules st (rulesAfterLoad st folderPath)
  /\ exists entries,
      Fs.lookup (Path.segments folderPath) (disk st) = Some (Fs.Dir entries)
      /\ let structure :=
           V3.readFolderStructure ignores (this st') "" (Fs.Dir entries) in
         V3.files stats = V3.count "file" structure
         /\ V3.directories stats = V3.count "directory" structure.
Proof.
  unfold V3.getFolderStats, bind at 1. rewrite existsSync_spec.
  destruct (Fs.lookup (Path.segments folderPath) (disk st)) as [root|] eqn:Hroot;
    [|discriminate].
  cbn [negb when]. unfold bind at 1. cbn [ret]. unfold bind at 1.
  destruct (V3.loadGitignore folderPath st) as [[[]|e] st1] eqn:Hload;
    [|discriminate].
  apply loadGitignore_returns in Hload. unfold bind at 1.
  destruct (V3.walk ignores folderPath st1) as [[structure|e] st2] eqn:Hwalk;
    [|discriminate].
  apply walk_returns in Hwalk as (-> & entries & Hentries & ->).
  cbn [ret]. intros H. inversion H. subst st' stats. clear H.
  split; [exact Hload|].
  exists entries. split.
  - rewrite Hload in Hentries. cbn [withRules disk] in Hentries.
    rewrite <- Hroot. exact Hentries.
  - cbn. split; reflexivity.
Qed.

Lemma folderToText_returns ignores now folderPath outputPath st r st' :
  V3.folderToText ignores now folderPath outputPath st = (Return r, st') ->
  success r = true ->
  this st' = this (withRules st (rulesAfterLoad st folderPath))
  /\ exists entries,
      Fs.lookup (Path.segments folderPath) (disk st) = Some (Fs.Dir entries)
      /\ stats r
         = Some (V3.makeMetadata now folderPath
                   (V3.readFolderStructure ignores
                      (this (withRules st (rulesAfterLoad st folderPath))) ""
                      (Fs.Dir entries))).
Proof.
  unfold V3.folderToText, try_catch.
  match goal with |- context [match ?b st with _ => _ end] => set (body := b) end.
  destruct (body st) as [[r0|e] stb] eqn:Hb;
    [|intros H; inversion H; subst; discriminate].
  intros H Hs. inversion H. subst r0 stb. clear H.
  subst body. unfold bind at 1 in Hb. rewrite existsSync_spec in Hb.
  destruct (Fs.lookup (Path.segments folderPath) (disk st)) as [root|] eqn:Hroot;
    [|discriminate].
  cbn [negb when] in Hb. unfold bind at 1 in Hb. cbn [ret] in Hb.
  unfold bind at 1 in Hb. unfold isDirectory at 1, bind at 1, get_disk in Hb.
  rewrite Hroot in Hb.
  destruct root as [data|entries]; cbn [ret negb when] in Hb.
  { unfold bind at 1 in Hb. cbn in Hb. discriminate. }
  unfold bind at 1 in Hb. cbn [ret] in Hb. unfold bind at 1 in Hb.
  destruct (V3.loadGitignore folderPath st) as [[[]|e] st1] eqn:Hload;
    [|discriminate].
  apply loadGitignore_returns in Hload. unfold bind at 1 in Hb.
  destruct (V3.walk ignores folderPath st1) as [[structure|e] st2] eqn:Hwalk;
    [|discriminate].
  apply walk_returns in Hwalk as (-> & entries' & Hentries & ->).
  rewrite Hload in Hentries. cbn [withRules disk] in Hentries.
  rewrite Hroot in Hentries. inversion Hentries. subst entries'. clear Hentries.
  cbv zeta in Hb. split.
  - match type of Hb with ?m st1 = _ => assert (Hk : keeps_this m) end.
    { repeat keeps_step. }
    rewrite (keeps_this_run _ _ _ _ Hk Hb). now rewrite Hload.
  - exists entries. split; [reflexivity|].
    match type of Hb with ?m st1 = _ =>
      assert (Hr : returns (fun x => stats x
                     = Some (V3.makeMetadata now folderPath
                               (V3.readFolderStructure ignores (this st1) ""
                                  (Fs.Dir entries)))) m)
    end.
    { repeat returns_step. reflexivity. }
    rewrite (Hr _ _ _ Hb). now rewrite Hload.
Qed.




(* ================================================================== *)
(** * The walk *)

Lemma node_rect' (P : Fs.node -> Prop) :
  (forall data, P (Fs.File data)) ->
  (forall entries, Forall (fun e => P (snd e)) entries -> P (Fs.Dir entries)) ->
  forall n, P n.
Proof.
  intros Hf Hd. fix IH 1. intros [data|entries].
  - apply Hf.
  - apply Hd.
    refine ((fix go (l : list (string * Fs.node))
               : Forall (fun e => P (snd e)) l :=
               match l with
               | [] => Forall_nil _
               | e :: rest => Forall_cons e (IH (snd e)) (go rest)
               end) entries).
Qed.

Lemma readFolderStructure_dir ignores t rel entries :
  V3.readFolderStructure ignores t rel (Fs.Dir entries)
  = walkLoop ignores t rel entries [].
Proof. reflexivity. Qed.




(* ================================================================== *)
(** * Size fields of the v2 archive *)

Lemma find_replace name c c' entries :
  Fs.find name entries = Some c ->
  Fs.find name (Fs.replace name c' entries) = Some c'.
Proof.
  induction entries as [|[n x] rest IH]; cbn; [discriminate|].
  destruct (String.eqb name n) eqn:E; cbn; rewrite E; auto.
Qed.

Lemma find_app_new name c entries :
  Fs.find name entries = None ->
  Fs.find name (entries ++ [(name, c)]) = Some c.
Proof.
  induction entries as [|[n x] rest IH]; cbn.
  - now rewrite String.eqb_refl.
  - destruct (String.eqb name n); [discriminate | exact IH].
Qed.

Lemma write_lookup segs data :
  forall d d', Fs.write segs data d = inr d' ->
               Fs.lookup segs d' = Some (Fs.File data).
Proof.
  induction segs as [|s rest IH]; intros d d'; cbn.
  - destruct d; [|discriminate]. intros H. now inversion H.
  - destruct d as [old|entries]; [discriminate|].
    destruct (Fs.find s entries) as [c|] eqn:Hf.
    + destruct (Fs.write rest data c) as [e|c'] eqn:Hw; [discriminate|].
      intros H. inversion H. cbn.
      rewrite (find_replace _ _ _ _ Hf). eapply IH; eassumption.
    + destruct rest; [|discriminate].
      intros H. inversion H. cbn.
      now rewrite (find_app_new _ _ _ Hf).
Qed.








(** The binary file of the sample: five bytes on disk, eight characters of
    base64 in the archive, and a size field of five. *)
Example v2_binary_item_keeps_size :
  exists st' structure',
    mapM (V2.embedContent "assets")
         (V3.readFolderStructure Ignore.ignores (constructor defaultOptions) ""
            (Fs.Dir [("logo.png", Fs.File binarySample)]))
         (freshOn assetsDisk) = (Return structure', st')
    /\ map V2.snapItem structure'
       = [Json.Obj [("type", Json.Str "file"); ("path", Json.Str "logo.png");
                    ("name", Json.Str "logo.png"); ("size", Json.nat_num 5);
                    ("content", Json.Str "iVAA/wo=");
                    ("encoding", Json.Str "base64")]].
Proof. do 2 eexists. split; vm_compute; reflexivity. Qed.

(* ================================================================== *)
(** * Order of the walk *)

Lemma first_name (a b x y : string) :
  slash_free a = true -> slash_free b = true -> slashy x -> slashy y ->
  a ++ x = b ++ y -> a = b.
Proof.
  revert b. induction a as [|c a IH]; intros b Ha Hb Hx Hy H.
  - destruct b as [|c' b]; [reflexivity|]. cbn in H, Hb.
    apply andb_prop in Hb as [Hc _].
    destruct Hx as [-> | [t ->]]; [discriminate|].
    inversion H. subst c'. discriminate.
  - destruct b as [|c' b]; cbn in H, Ha.
    + apply andb_prop in Ha as [Hc _].
      destruct Hy as [-> | [t ->]]; [discriminate|].
      inversion H. subst c. discriminate.
    + cbn in Hb. apply andb_prop in Ha as [_ Ha]. apply andb_prop in Hb as [_ Hb].
      inversion H. subst c'. f_equal. eapply IH; eassumption.
Qed.

Lemma name_ok_parts name :
  name_ok name = true -> name <> "" /\ slash_free name = true.
Proof.
  unfold name_ok. intros H. apply andb_prop in H as [Hne Hs]. split; [|exact Hs].
  intros ->. discriminate.
Qed.

Lemma child_nonempty rel name : name <> "" -> Path.child rel name <> "".
Proof.
  unfold Path.child. destruct (String.eqb rel "") eqn:E; [auto|].
  intros _. destruct rel; [discriminate|]. discriminate.
Qed.

Lemma child_of_nonempty rel name :
  rel <> "" -> Path.child rel name = rel ++ "/" ++ name.
Proof.
  intros H. unfold Path.child. apply String.eqb_neq in H. now rewrite H.
Qed.

(** Two paths with heads [a] and [b] in one directory, one below the
    other: the heads are the same name. *)
Lemma headed_under_same rel a b pd pe :
  name_ok a = true -> name_ok b = true ->
  headed rel a pd -> headed rel b pe -> under pd pe -> a = b.
Proof.
  intros Ha Hb (ta & -> & Hta) (tb & -> & Htb) (rest & Hu).
  apply name_ok_parts in Ha as [_ Ha]. apply name_ok_parts in Hb as [_ Hb].
  assert (Hs : slashy (ta ++ "/" ++ rest)).
  { destruct Hta as [-> | [t ->]]; right; eexists; reflexivity. }
  unfold Path.child in Hu. destruct (String.eqb rel "").
  - rewrite append_assoc in Hu. symmetry.
    eapply (first_name b a); [| | exact Htb | exact Hs | exact Hu]; assumption.
  - rewrite !append_assoc in Hu. apply append_cancel in Hu.
    cbn [append] in Hu. inversion Hu as [Hu']. symmetry.
    eapply (first_name b a); [| | exact Htb | exact Hs | exact Hu']; assumption.
Qed.

Lemma headed_deeper rel name sub p :
  name <> "" -> headed (Path.child rel name) sub p -> headed rel name p.
Proof.
  intros Hne (tail & -> & Ht).
  rewrite (child_of_nonempty _ sub (child_nonempty rel name Hne)).
  exists ("/" ++ sub ++ tail). split.
  - now rewrite !append_assoc.
  - right. eexists. reflexivity.
Qed.

Lemma under_longer pd pe : under pd pe -> String.length pd < String.length pe.
Proof.
  intros (rest & ->). rewrite length_append. cbn. lia.
Qed.

Lemma heads_more rel names names' l :
  incl names names' -> heads rel names l -> heads rel names' l.
Proof.
  intros Hincl. apply Forall_impl. intros x (name & Hin & Hok & Hh).
  exists name. auto.
Qed.

Lemma preorder_app (a b : list Json.value) :
  preorder a -> preorder b ->
  (forall d e, In e a -> In d b -> V3.is_type "directory" d = true ->
               under (itemPath d) (itemPath e) -> False) ->
  preorder (a ++ b).
Proof.
  intros Ha Hb Hcross i j d e Hj Hi Hle Hd Hu.
  destruct (Nat.lt_ge_cases j (List.length a)) as [Hja | Hja];
    destruct (Nat.lt_ge_cases i (List.length a)) as [Hia | Hia].
  - rewrite nth_error_app1 in Hj, Hi by assumption.
    exact (Ha i j d e Hj Hi Hle Hd Hu).
  - rewrite nth_error_app1 in Hj by assumption.
    rewrite nth_error_app2 in Hi by assumption.
    apply nth_error_In in Hj. apply nth_error_In in Hi.
    exact (Hcross d e Hj Hi Hd Hu).
  - lia.
  - rewrite nth_error_app2 in Hj, Hi by assumption.
    refine (Hb _ _ d e Hj Hi _ Hd Hu). lia.
Qed.

Lemma distinct_cons name rest :
  distinct (name :: rest) = true -> ~ In name rest /\ distinct rest = true.
Proof.
  cbn. intros H. apply andb_prop in H as [Hn Hd]. split; [|exact Hd].
  intros Hin. apply negb_true_iff in Hn.
  assert (Ht : existsb (String.eqb name) rest = true).
  { apply existsb_exists. exists name. split; [exact Hin | apply String.eqb_refl]. }
  congruence.
Qed.

Lemma preorder_directory_block rel item sub :
  item <> "" ->
  preorder sub ->
  Forall (fun x => exists name, name_ok name = true
                   /\ headed (Path.child rel item) name (itemPath x)) sub ->
  preorder (V3.directoryItem (Path.child rel item) item :: sub).
Proof.
  intros Hne Hsub Hheads i j d e Hj Hi Hle Hd Hu.
  destruct i as [|i]; destruct j as [|j]; cbn in Hi, Hj; try lia.
  - inversion Hi. inversion Hj. subst d e.
    apply under_longer in Hu. lia.
  - inversion Hj. subst e. apply nth_error_In in Hi.
    rewrite Forall_forall in Hheads.
    destruct (Hheads _ Hi) as (name & _ & tail & Hp & _).
    apply under_longer in Hu. rewrite Hp in Hu.
    rewrite (child_of_nonempty _ name (child_nonempty rel item Hne)) in Hu.
    cbn in Hu. repeat (rewrite length_append in Hu; cbn in Hu). lia.
  - refine (Hsub i j d e Hj Hi _ Hd Hu). lia.
Qed.

Lemma walkLoop_preorder ignores t rel entries :
  Forall (fun e =>
            name_ok (fst e) = true
            /\ forall rel',
                preorder (V3.readFolderStructure ignores t rel' (snd e))
                /\ Forall (fun x => exists name, name_ok name = true
                                    /\ headed rel' name (itemPath x))
                          (V3.readFolderStructure ignores t rel' (snd e)))
         entries ->
  forall items done structure,
    incl items entries ->
    distinct (map fst items) = true ->
    (forall n, In n done -> ~ In n (map fst items)) ->
    preorder structure ->
    heads rel done structure ->
    preorder (walkLoop ignores t rel items structure)
    /\ heads rel (done ++ map fst items) (walkLoop ignores t rel items structure).
Proof.
  intros Hsub. induction items as [|[item child] rest IH];
    intros done structure Hincl Hdist Hfresh Hpre Hheads; cbn [walkLoop].
  - split; [exact Hpre|]. now rewrite app_nil_r.
  - cbn [map fst] in Hdist, Hfresh.
    apply distinct_cons in Hdist as [Hnew Hdist].
    assert (Hin : In (item, child) entries) by (apply Hincl; now left).
    assert (Hrest : incl rest entries)
      by (intros x Hx; apply Hincl; now right).
    rewrite Forall_forall in Hsub.
    destruct (Hsub _ Hin) as [Hok Hchild]. cbn [fst snd] in Hok, Hchild.
    destruct (name_ok_parts _ Hok) as [Hne _].
    assert (Hmore : incl ((done ++ [item]) ++ map fst rest)
                         (done ++ map fst ((item, child) :: rest))).
    { cbn [map fst]. rewrite <- app_assoc. apply incl_refl. }
    assert (Hfresh' : forall n, In n (done ++ [item]) -> ~ In n (map fst rest)).
    { intros n Hn. apply in_app_or in Hn as [Hn | [<- | []]].
      - intros Hr. apply (Hfresh n Hn). now right.
      - exact Hnew. }
    assert (Hblock : forall block,
               preorder block ->
               Forall (fun x => exists name, In name [item] /\ name_ok name = true
                                /\ headed rel name (itemPath x)) block ->
               preorder (structure ++ block)
               /\ heads rel (done ++ [item]) (structure ++ block)).
    { intros block Hb Hh. split.
      - apply preorder_app; [exact Hpre | exact Hb |].
        intros d e He Hd Hdir Hu.
        unfold heads in Hheads. rewrite Forall_forall in Hheads, Hh.
        destruct (Hheads _ He) as (ne & Hne_in & Hne_ok & Hne_h).
        destruct (Hh _ Hd) as (nd & [<- | []] & Hnd_ok & Hnd_h).
        pose proof (headed_under_same _ _ _ _ _ Hnd_ok Hne_ok Hnd_h Hne_h Hu).
        subst ne. apply (Hfresh item Hne_in). now left.
      - apply Forall_app. split.
        + eapply heads_more; [|exact Hheads]. apply incl_appl, incl_refl.
        + eapply heads_more; [|exact Hh]. apply incl_appr, incl_refl. }
    destruct (V3.shouldIgnore ignores t (Path.child rel item)).
    + destruct (IH done structure Hrest Hdist) as [Hp Hh]; auto.
      { intros n Hn Hr. apply (Hfresh n Hn). now right. }
      split; [exact Hp|]. eapply heads_more; [|exact Hh].
      cbn [map fst]. apply incl_app; [apply incl_appl, incl_refl|].
      apply incl_appr. apply incl_tl, incl_refl.
    + destruct child as [data|sub].
      * destruct (Hblock [V3.fileItem (Path.child rel item) item (List.length data)
                            (List.length (filter (V3.is_type "file") structure))])
          as [Hp Hh].
        { intros i j d e Hj Hi _ Hd _.
          destruct i as [|[|i]]; cbn in Hi; try discriminate.
          inversion Hi. subst d. discriminate Hd. }
        { constructor; [|constructor]. exists item.
          split; [now left|]. split; [exact Hok|].
          exists "". split; [|now left].
          cbn. symmetry. clear. induction (Path.child rel item); cbn; congruence. }
        destruct (IH (done ++ [item])%list _ Hrest Hdist Hfresh' Hp Hh) as [Hp' Hh'].
        split; [exact Hp'|]. eapply heads_more; [exact Hmore | exact Hh'].
      * destruct (Hchild (Path.child rel item)) as [Hsubpre Hsubheads].
        rewrite <- app_assoc.
        destruct (Hblock ([V3.directoryItem (Path.child rel item) item]
                            ++ V3.readFolderStructure ignores t
                                 (Path.child rel item) (Fs.Dir sub))%list)
          as [Hp Hh].
        { cbn [List.app]. apply preorder_directory_block; assumption. }
        { cbn [List.app]. constructor.
          - exists item. split; [now left|]. split; [exact Hok|].
            exists "". split; [|now left].
            cbn. symmetry. clear. induction (Path.child rel item); cbn; congruence.
          - eapply Forall_impl; [|exact Hsubheads].
            intros x (name & Hname & Hx). exists item.
            split; [now left|]. split; [exact Hok|].
            eapply headed_deeper; eassumption. }
        destruct (IH (done ++ [item])%list _ Hrest Hdist Hfresh' Hp Hh) as [Hp' Hh'].
        split; [exact Hp'|]. eapply heads_more; [exact Hmore | exact Hh'].
Qed.

Lemma readFolderStructure_preorder ignores t n :
  listing_ok n = true ->
  forall rel,
    preorder (V3.readFolderStructure ignores t rel n)
    /\ Forall (fun x => exists name, name_ok name = true
                        /\ headed rel name (itemPath x))
              (V3.readFolderStructure ignores t rel n).
Proof.
  induction n as [data|entries IH] using node_rect'; intros Hok rel.
  - split; [|constructor].
    intros i j d e Hj. destruct j; discriminate Hj.
  - rewrite readFolderStructure_dir.
    cbn [listing_ok] in Hok. apply andb_prop in Hok as [Hdist Hall].
    rewrite forallb_forall in Hall.
    destruct (walkLoop_preorder ignores t rel entries) with
      (items := entries) (done := @nil string) (structure := @nil Json.value)
      as [Hp Hh].
    + rewrite Forall_forall in IH |- *. intros e He.
      specialize (Hall e He). apply andb_prop in Hall as [Hn Hl].
      split; [exact Hn|]. intros rel'. apply IH; assumption.
    + apply incl_refl.
    + exact Hdist.
    + intros n [].
    + intros i j d e Hj. destruct j; discriminate Hj.
    + constructor.
    + split; [exact Hp|]. eapply Forall_impl; [|exact Hh].
      intros x (name & _ & Hname & Hx). now exists name.
Qed.

(** C4.  In the list [readFolderStructure] returns for a folder, every
    directory item stands before every item whose relative path lies below
    the path of the directory: a directory comes before all of its
    descendants. *)
Theorem directory_precedes_descendants
    (ignores : list string -> string -> bool) (t : FolderSnap)
    (root : Fs.node) (i j : nat) (d e : Json.value) :
  listing_ok root = true ->
  nth_error (V3.readFolderStructure ignores t "" root) i = Some d ->
  nth_error (V3.readFolderStructure ignores t "" root) j = Some e ->
  V3.is_type "directory" d = true ->
  under (itemPath d) (itemPath e) ->
  i < j.
Proof.
  intros Hok Hi Hj Hd Hu.
  destruct (readFolderStructure_preorder ignores t root Hok "") as [Hp _].
  destruct (Nat.lt_ge_cases i j) as [Hlt | Hge]; [exact Hlt|].
  exfalso. exact (Hp i j d e Hj Hi Hge Hd Hu).
Qed.

Lemma directory_precedes_descendants_witness :
  listing_ok sampleProject = true
  /\ nth_error (V3.readFolderStructure Ignore.ignores
                  (constructor defaultOptions) "" sampleProject) 1
     = Some (V3.fileItem "src/a.txt" "a.txt" 5 0)
  /\ 0 < 1.
Proof.
  split; [reflexivity|]. split; [reflexivity|].
  apply (directory_precedes_descendants Ignore.ignores
           (constructor defaultOptions) sampleProject 0 1
           (V3.directoryItem "src" "src")
           (V3.fileItem "src/a.txt" "a.txt" 5 0)).
  - reflexivity.
  - reflexivity.
  - reflexivity.
  - reflexivity.
  - exists "a.txt". reflexivity.
Defined.

(* ================================================================== *)
(** * Computations that preserve a relation on states *)

Section Preserves.

Variable R : State -> State -> Prop.
Hypothesis R_refl : forall st, R st st.
Hypothesis R_trans : forall a b c, R a b -> R b c -> R a c.

Lemma preserves_ret {A} (a : A) : preserves R (ret a).
Proof. intros st. apply R_refl. Qed.

Lemma preserves_throw {A} (e : exn) : preserves R (@throw A e).
Proof. intros st. apply R_refl. Qed.

Lemma preserves_bind {A B} (m : M A) (k : A -> M B) :
  preserves R m -> (forall a, preserves R (k a)) -> preserves R (bind m k).
Proof.
  intros Hm Hk st. unfold bind. specialize (Hm st).
  destruct (m st) as [[a|e] st1]; cbn in *; [|exact Hm].
  eapply R_trans; [exact Hm | apply Hk].
Qed.

Lemma preserves_try_catch {A} (body : M A) (handler : exn -> M A) :
  preserves R body -> (forall e, preserves R (handler e)) ->
  preserves R (try_catch body handler).
Proof.
  intros Hb Hh st. unfold try_catch. specialize (Hb st).
  destruct (body st) as [[a|e] st1]; cbn in *; [exact Hb|].
  eapply R_trans; [exact Hb | apply Hh].
Qed.

Lemma preserves_get_disk : preserves R get_disk.
Proof. intros st. apply R_refl. Qed.

Lemma preserves_get_this : preserves R get_this.
Proof. intros st. apply R_refl. Qed.

Lemma preserves_mapM {A B} (f : A -> M B) (l : list A) :
  (forall x, preserves R (f x)) -> preserves R (mapM f l).
Proof.
  intros Hf. induction l as [|x rest IH]; cbn [mapM].
  - apply preserves_ret.
  - apply preserves_bind; [apply Hf|]. intros y.
    apply preserves_bind; [exact IH|]. intros ys. apply preserves_ret.
Qed.

Lemma preserves_forM_ {A} (l : list A) (f : A -> M unit) :
  (forall x, preserves R (f x)) -> preserves R (forM_ l f).
Proof.
  intros Hf. induction l as [|x rest IH]; cbn [forM_].
  - apply preserves_ret.
  - apply preserves_bind; [apply Hf | intros _; exact IH].
Qed.

Lemma preserves_filterM {A} (f : A -> M bool) (l : list A) :
  (forall x, preserves R (f x)) -> preserves R (filterM f l).
Proof.
  intros Hf. induction l as [|x rest IH]; cbn [filterM].
  - apply preserves_ret.
  - apply preserves_bind; [apply Hf|]. intros b.
    apply preserves_bind; [exact IH|]. intros ys. apply preserves_ret.
Qed.

End Preserves.

(** One step through the syntax of a computation that only reads. *)
Ltac preserves_step Hrefl Htrans :=
  lazymatch goal with
  | |- preserves ?R (bind _ _) =>
      apply (preserves_bind R Htrans); [|intros ?]
  | |- preserves ?R (try_catch _ _) =>
      apply (preserves_try_catch R Htrans); [|intros ?]
  | |- preserves ?R (throw _) => apply (preserves_throw R Hrefl)
  | |- preserves ?R (ret _) => apply (preserves_ret R Hrefl)
  | |- preserves ?R get_disk => apply (preserves_get_disk R Hrefl)
  | |- preserves ?R get_this => apply (preserves_get_this R Hrefl)
  | |- preserves ?R (mapM _ _) =>
      apply (preserves_mapM R Hrefl Htrans); intros ?
  | |- preserves ?R (forM_ _ _) =>
      apply (preserves_forM_ R Hrefl Htrans); intros ?
  | |- preserves ?R (filterM _ _) =>
      apply (preserves_filterM R Hrefl Htrans); intros ?
  | |- preserves _ (when ?b _) => unfold when; destruct b
  | |- preserves _ (if ?b then _ else _) => destruct b
  | |- preserves _ (match ?x with _ => _ end) => destruct x
  | |- preserves _ (existsSync _) => unfold existsSync
  | |- preserves _ (isDirectory _) => unfold isDirectory
  | |- preserves _ (readFileSync _) => unfold readFileSync
  | |- preserves _ (readTextSync _) => unfold readTextSync
  | |- preserves _ (JSON_parse _) => unfold JSON_parse
  | |- preserves _ (prop (Some ?v) _) => unfold prop; destruct v
  | |- preserves _ (prop ?v _) => unfold prop; destruct v as [[]|]
  | |- preserves _ (path_arg ?v) => unfold path_arg; destruct v as [[]|]
  | |- preserves _ (array_filter ?v _) =>
      unfold array_filter; destruct v as [[]|]
  | |- preserves _ (has_type _ _) => unfold has_type
  end.

Lemma eq_state_trans (a b c : State) : a = b -> b = c -> a = c.
Proof. congruence. Qed.

Lemma same_disk_refl st : same_disk st st.
Proof. reflexivity. Qed.

Lemma same_disk_trans a b c : same_disk a b -> same_disk b c -> same_disk a c.
Proof. unfold same_disk. congruence. Qed.

(** X1.  [validateSnapFile] only reads: whatever the file holds, and
    whatever the outcome, the file system and the instance are left as they
    were. *)
Theorem validateSnapFile_reads_only (snapFilePath : string) (st : State) :
  snd (V3.validateSnapFile snapFilePath st) = st.
Proof.
  assert (H : preserves (fun a b => a = b) (V3.validateSnapFile snapFilePath)).
  { unfold V3.validateSnapFile.
    repeat preserves_step (@eq_refl State) eq_state_trans. }
  symmetry. apply H.
Qed.

Lemma only_rules_differ_refl st : only_rules_differ st st.
Proof. split; reflexivity. Qed.

Lemma only_rules_differ_trans a b c :
  only_rules_differ a b -> only_rules_differ b c -> only_rules_differ a c.
Proof. unfold only_rules_differ. intros [] []. split; congruence. Qed.

Lemma loadGitignore_only_rules folderPath :
  preserves only_rules_differ (V3.loadGitignore folderPath).
Proof.
  intros st.
  unfold only_rules_differ, V3.loadGitignore, V3.ig_add, bind, get_this, put_this.
  rewrite existsSync_spec. cbn [disk this options ig].
  destruct (Fs.lookup _ (disk st)) as [[data|entries]|] eqn:Hl.
  - unfold readTextSync, readFileSync, bind, get_disk. cbn [disk].
    rewrite Hl. split; reflexivity.
  - unfold readTextSync, readFileSync, bind, get_disk. cbn [disk].
    rewrite Hl. split; reflexivity.
  - split; reflexivity.
Qed.

(** X2.  [getFolderStats] never touches the file system: with a result or
    with an exception, the disk and the options are the ones it started
    with; the rule set of the instance is all it changes. *)
Theorem getFolderStats_leaves_disk
    (ignores : list string -> string -> bool) (folderPath : string)
    (st : State) :
  disk (snd (V3.getFolderStats ignores folderPath st)) = disk st
  /\ options (this (snd (V3.getFolderStats ignores folderPath st)))
     = options (this st).
Proof.
  assert (H : preserves only_rules_differ (V3.getFolderStats ignores folderPath)).
  { unfold V3.getFolderStats.
    apply (preserves_bind only_rules_differ only_rules_differ_trans);
      [repeat preserves_step only_rules_differ_refl only_rules_differ_trans|].
    intros found.
    apply (preserves_bind only_rules_differ only_rules_differ_trans);
      [repeat preserves_step only_rules_differ_refl only_rules_differ_trans|].
    intros _.
    apply (preserves_bind only_rules_differ only_rules_differ_trans);
      [apply loadGitignore_only_rules|]. intros _.
    unfold V3.walk.
    repeat preserves_step only_rules_differ_refl only_rules_differ_trans. }
  apply H.
Qed.

(* ================================================================== *)
(** * What the walk lists *)

Lemma walkLoop_acc ignores t rel items :
  forall structure x,
    In x structure -> In x (walkLoop ignores t rel items structure).
Proof.
  induction items as [|[item child] rest IH]; intros structure x Hx;
    cbn [walkLoop].
  - exact Hx.
  - destruct (V3.shouldIgnore ignores t (Path.child rel item)).
    + now apply IH.
    + destruct child; apply IH; repeat (apply in_or_app; left); exact Hx.
Qed.

Lemma describes_fileItem p name data idx :
  describes (V3.fileItem p name (List.length data) idx) p (Fs.File data).
Proof. repeat split. Qed.

Lemma describes_directoryItem p name entries :
  describes (V3.directoryItem p name) p (Fs.Dir entries).
Proof. repeat split. Qed.

(** What the loop adds for an entry it keeps. *)
Lemma walkLoop_entry ignores t rel items :
  forall structure name c,
    In (name, c) items ->
    V3.shouldIgnore ignores t (Path.child rel name) = false ->
    (exists item,
        In item (walkLoop ignores t rel items structure)
        /\ describes item (Path.child rel name) c)
    /\ forall x,
        In x (V3.readFolderStructure ignores t (Path.child rel name) c) ->
        In x (walkLoop ignores t rel items structure).
Proof.
  induction items as [|[item child] rest IH]; intros structure name c Hin Hk;
    [destruct Hin|].
  cbn [walkLoop]. destruct Hin as [Heq | Hin].
  - inversion Heq. subst item child. rewrite Hk.
    destruct c as [data|sub].
    + split.
      * eexists. split; [|apply describes_fileItem].
        apply walkLoop_acc. apply in_or_app. right. now left.
      * intros x [].
    + split.
      * eexists. split; [|apply describes_directoryItem with (name := name)].
        apply walkLoop_acc. apply in_or_app. left.
        apply in_or_app. right. now left.
      * intros x Hx. apply walkLoop_acc. apply in_or_app. now right.
  - destruct (V3.shouldIgnore ignores t (Path.child rel item)).
    + now apply IH.
    + destruct child; now apply IH.
Qed.

Lemma kept_walked ignores t rel n p x :
  kept ignores t rel n p x ->
  exists item,
    In item (V3.readFolderStructure ignores t rel n) /\ describes item p x.
Proof.
  induction 1 as [rel entries name c Hin Hk
                 | rel entries name sub p x Hin Hk _ IH].
  - rewrite readFolderStructure_dir.
    exact (proj1 (walkLoop_entry ignores t rel entries [] name c Hin Hk)).
  - destruct IH as (item & Hitem & Hd). exists item. split; [|exact Hd].
    rewrite readFolderStructure_dir.
    exact (proj2 (walkLoop_entry ignores t rel entries [] name _ Hin Hk)
             item Hitem).
Qed.

Lemma walkLoop_kept ignores t rel entries :
  Forall (fun e => forall rel',
              Forall (from_kept ignores t rel' (snd e))
                     (V3.readFolderStructure ignores t rel' (snd e))) entries ->
  forall items structure,
    incl items entries ->
    Forall (from_kept ignores t rel (Fs.Dir entries)) structure ->
    Forall (from_kept ignores t rel (Fs.Dir entries))
           (walkLoop ignores t rel items structure).
Proof.
  intros Hsub. induction items as [|[item child] rest IH];
    intros structure Hincl Hacc; cbn [walkLoop].
  - exact Hacc.
  - assert (Hin : In (item, child) entries) by (apply Hincl; now left).
    assert (Hrest : incl rest entries)
      by (intros x Hx; apply Hincl; now right).
    destruct (V3.shouldIgnore ignores t (Path.child rel item)) eqn:Hk.
    + apply IH; assumption.
    + destruct child as [data|sub].
      * apply IH; [exact Hrest|].
        apply Forall_app. split; [exact Hacc|].
        constructor; [|constructor].
        exists (Path.child rel item), (Fs.File data).
        split; [now apply kept_entry | apply describes_fileItem].
      * apply IH; [exact Hrest|].
        apply Forall_app. split.
        -- apply Forall_app. split; [exact Hacc|].
           constructor; [|constructor].
           exists (Path.child rel item), (Fs.Dir sub).
           split; [now apply kept_entry | apply describes_directoryItem].
        -- rewrite Forall_forall in Hsub.
           specialize (Hsub _ Hin (Path.child rel item)). cbn [snd] in Hsub.
           eapply Forall_impl; [|exact Hsub].
           intros x (p & y & Hy & Hd). exists p, y. split; [|exact Hd].
           eapply kept_deeper; eassumption.
Qed.

Lemma readFolderStructure_kept ignores t n :
  forall rel,
    Forall (from_kept ignores t rel n) (V3.readFolderStructure ignores t rel n).
Proof.
  induction n as [data|entries IH] using node_rect'; intros rel.
  - constructor.
  - rewrite readFolderStructure_dir.
    apply walkLoop_kept; [exact IH | apply incl_refl | constructor].
Qed.

(** X5.  The walk lists exactly what is kept: every item of
    [readFolderStructure] is the item of a node that [shouldIgnore] accepts
    and that lies below accepted directories only, with its relative path,
    its kind and, for a file, its byte count; and every such node has its
    item in the list. *)
Theorem walk_lists_what_is_kept
    (ignores : list string -> string -> bool) (t : FolderSnap)
    (root : Fs.node) :
  (forall item,
      In item (V3.readFolderStructure ignores t "" root) ->
      exists p x, kept ignores t "" root p x /\ describes item p x)
  /\ (forall p x,
         kept ignores t "" root p x ->
         exists item,
           In item (V3.readFolderStructure ignores t "" root)
           /\ describes item p x).
Proof.
  split.
  - intros item Hin.
    pose proof (readFolderStructure_kept ignores t root "") as H.
    rewrite Forall_forall in H. exact (H item Hin).
  - intros p x. apply kept_walked.
Qed.

Lemma chars_text cs : Js.chars (Js.text cs) = cs.
Proof. apply list_ascii_of_string_of_list_ascii. Qed.

Lemma text_chars s : Js.text (Js.chars s) = s.
Proof. apply string_of_list_ascii_of_string. Qed.

Lemma split_chars_app sep cur x y :
  Js.split_chars sep cur (x ++ sep :: y)%list
  = (Js.split_chars sep cur x ++ Js.split_chars sep [] y)%list.
Proof.
  revert cur. induction x as [|c x IH]; intros cur; cbn.
  - now rewrite Ascii.eqb_refl.
  - destruct (Ascii.eqb c sep); [cbn; f_equal|]; apply IH.
Qed.

Lemma split_chars_slash_free cur name :
  slash_free name = true ->
  Js.split_chars "/" cur (Js.chars name)
  = [Js.text (List.rev cur ++ Js.chars name)%list].
Proof.
  revert cur. induction name as [|c name IH]; intros cur H; cbn.
  - now rewrite app_nil_r.
  - cbn in H. apply andb_prop in H as [Hc Hn].
    apply negb_true_iff in Hc. rewrite Hc.
    rewrite IH by exact Hn. cbn. now rewrite <- app_assoc.
Qed.

Lemma components_name name :
  slash_free name = true -> components name = [name].
Proof.
  intros H. unfold components, Js.split.
  rewrite split_chars_slash_free by exact H. cbn. now rewrite text_chars.
Qed.

Lemma components_child rel name :
  name_ok name = true ->
  components (Path.child rel name)
  = if String.eqb rel "" then [name] else (components rel ++ [name])%list.
Proof.
  intros Hok. destruct (name_ok_parts _ Hok) as [_ Hs].
  unfold Path.child. destruct (String.eqb rel "").
  - now apply components_name.
  - unfold components, Js.split. rewrite chars_append. cbn [Js.chars append].
    change (Js.chars (String "/" name)) with ("/"%char :: Js.chars name).
    rewrite split_chars_app. f_equal. apply (components_name name Hs).
Qed.


Lemma basename_child rel name :
  name_ok name = true -> Path.basename (Path.child rel name) = name.
Proof.
  intros Hok. destruct (name_ok_parts _ Hok) as [Hne _].
  unfold Path.basename, Path.raw_segments.
  fold (components (Path.child rel name)).
  rewrite components_child by exact Hok.
  assert (Hn : negb (String.eqb name "") = true).
  { apply negb_true_iff. now apply String.eqb_neq. }
  destruct (String.eqb rel "").
  - cbn. now rewrite Hn.
  - rewrite filter_app. cbn [filter]. rewrite Hn. apply last_last.
Qed.

Lemma kept_visible ignores t rel n p x :
  includeHidden (options t) = false ->
  kept ignores t rel n p x ->
  listing_ok n = true ->
  rel = "" \/ forallb visible (components rel) = true ->
  forallb visible (components p) = true.
Proof.
  intros Hhid. induction 1 as [rel entries name c Hin Hk
                              | rel entries name sub p x Hin Hk _ IH];
    intros Hok Hrel.
  - cbn [listing_ok] in Hok. apply andb_prop in Hok as [_ Hall].
    rewrite forallb_forall in Hall. specialize (Hall _ Hin). cbn [fst snd] in Hall.
    apply andb_prop in Hall as [Hname _].
    unfold V3.shouldIgnore in Hk. rewrite Hhid in Hk. cbn [negb andb] in Hk.
    rewrite (basename_child _ _ Hname) in Hk.
    destruct (Js.startsWith "." name) eqn:Hdot; [discriminate|].
    rewrite (components_child _ _ Hname).
    destruct Hrel as [-> | Hrel].
    + cbn. unfold visible. now rewrite Hdot.
    + destruct (String.eqb rel "").
      * cbn. unfold visible. now rewrite Hdot.
      * rewrite forallb_app, Hrel. cbn. unfold visible. now rewrite Hdot.
  - cbn [listing_ok] in Hok. apply andb_prop in Hok as [_ Hall].
    rewrite forallb_forall in Hall. specialize (Hall _ Hin). cbn [fst snd] in Hall.
    apply andb_prop in Hall as [Hname Hsub].
    apply IH; [exact Hsub|]. right.
    unfold V3.shouldIgnore in Hk. rewrite Hhid in Hk. cbn [negb andb] in Hk.
    rewrite (basename_child _ _ Hname) in Hk.
    destruct (Js.startsWith "." name) eqn:Hdot; [discriminate|].
    rewrite (components_child _ _ Hname).
    destruct Hrel as [-> | Hrel].
    + cbn. unfold visible. now rewrite Hdot.
    + destruct (String.eqb rel "").
      * cbn. unfold visible. now rewrite Hdot.
      * rewrite forallb_app, Hrel. cbn. unfold visible. now rewrite Hdot.
Qed.

(** X6.  With [includeHidden] off, which is the default, no component of a
    listed path begins with a dot: hidden files, hidden directories and
    everything below a hidden directory are left out of the walk. *)
Theorem hidden_entries_are_left_out
    (ignores : list string -> string -> bool) (t : FolderSnap)
    (root : Fs.node) (item : Json.value) :
  includeHidden (options t) = false ->
  listing_ok root = true ->
  In item (V3.readFolderStructure ignores t "" root) ->
  forallb visible (components (itemPath item)) = true.
Proof.
  intros Hhid Hok Hin.
  pose proof (readFolderStructure_kept ignores t root "") as H.
  rewrite Forall_forall in H. destruct (H item Hin) as (p & x & Hk & Hp & _).
  unfold itemPath. rewrite Hp. cbn [V3.display].
  eapply kept_visible; eauto.
Qed.

Lemma hidden_entries_are_left_out_witness :
  includeHidden (options (constructor defaultOptions)) = false
  /\ listing_ok sampleProject = true
  /\ forallb visible (components (itemPath (V3.fileItem "src/a.txt" "a.txt" 5 0)))
     = true.
Proof.
  split; [reflexivity|]. split; [reflexivity|].
  apply (hidden_entries_are_left_out Ignore.ignores (constructor defaultOptions)
           sampleProject (V3.fileItem "src/a.txt" "a.txt" 5 0)).
  - reflexivity.
  - reflexivity.
  - vm_compute. right. left. reflexivity.
Defined.

(** ** Paths of the list *)

Lemma append_nil_r (s : string) : s ++ "" = s.
Proof. induction s; cbn; congruence. Qed.

Lemma headed_same rel a b p :
  name_ok a = true -> name_ok b = true ->
  headed rel a p -> headed rel b p -> a = b.
Proof.
  intros Ha Hb (ta & -> & Hta) (tb & Hp & Htb).
  apply name_ok_parts in Ha as [_ Ha]. apply name_ok_parts in Hb as [_ Hb].
  unfold Path.child in Hp. destruct (String.eqb rel "").
  - exact (first_name a b ta tb Ha Hb Hta Htb Hp).
  - rewrite !append_assoc in Hp. apply append_cancel in Hp.
    cbn [append] in Hp. inversion Hp as [Hp'].
    exact (first_name a b ta tb Ha Hb Hta Htb Hp').
Qed.

Lemma headed_self rel name : headed rel name (Path.child rel name).
Proof. exists "". split; [symmetry; apply append_nil_r | now left]. Qed.

Lemma walkLoop_nodup ignores t rel entries :
  Forall (fun e =>
            name_ok (fst e) = true
            /\ forall rel',
                NoDup (map itemPath (V3.readFolderStructure ignores t rel' (snd e)))
                /\ Forall (fun x => exists name, name_ok name = true
                                    /\ headed rel' name (itemPath x))
                          (V3.readFolderStructure ignores t rel' (snd e)))
         entries ->
  forall items done structure,
    incl items entries ->
    distinct (map fst items) = true ->
    (forall n, In n done -> ~ In n (map fst items)) ->
    NoDup (map itemPath structure) ->
    heads rel done structure ->
    NoDup (map itemPath (walkLoop ignores t rel items structure))
    /\ heads rel (done ++ map fst items) (walkLoop ignores t rel items structure).
Proof.
  intros Hsub. induction items as [|[item child] rest IH];
    intros done structure Hincl Hdist Hfresh Hpre Hheads; cbn [walkLoop].
  - split; [exact Hpre|]. now rewrite app_nil_r.
  - cbn [map fst] in Hdist, Hfresh.
    apply distinct_cons in Hdist as [Hnew Hdist].
    assert (Hin : In (item, child) entries) by (apply Hincl; now left).
    assert (Hrest : incl rest entries)
      by (intros x Hx; apply Hincl; now right).
    rewrite Forall_forall in Hsub.
    destruct (Hsub _ Hin) as [Hok Hchild]. cbn [fst snd] in Hok, Hchild.
    destruct (name_ok_parts _ Hok) as [Hne _].
    assert (Hmore : incl ((done ++ [item]) ++ map fst rest)
                         (done ++ map fst ((item, child) :: rest))).
    { cbn [map fst]. rewrite <- app_assoc. apply incl_refl. }
    assert (Hfresh' : forall n, In n (done ++ [item]) -> ~ In n (map fst rest)).
    { intros n Hn. apply in_app_or in Hn as [Hn | [<- | []]].
      - intros Hr. apply (Hfresh n Hn). now right.
      - exact Hnew. }
    assert (Hblock : forall block,
               NoDup (map itemPath block) ->
               Forall (fun x => exists name, In name [item] /\ name_ok name = true
                                /\ headed rel name (itemPath x)) block ->
               NoDup (map itemPath (structure ++ block))
               /\ heads rel (done ++ [item]) (structure ++ block)).
    { intros block Hb Hh. split.
      - rewrite map_app. apply NoDup_app; [exact Hpre | exact Hb |].
        intros p He Hd.
        apply in_map_iff in He as (e & <- & He).
        apply in_map_iff in Hd as (d & Hsame & Hd).
        unfold heads in Hheads. rewrite Forall_forall in Hheads, Hh.
        destruct (Hheads _ He) as (ne & Hne_in & Hne_ok & Hne_h).
        destruct (Hh _ Hd) as (nd & [<- | []] & Hnd_ok & Hnd_h).
        rewrite Hsame in Hnd_h.
        pose proof (headed_same _ _ _ _ Hnd_ok Hne_ok Hnd_h Hne_h).
        subst ne. apply (Hfresh item Hne_in). now left.
      - apply Forall_app. split.
        + eapply heads_more; [|exact Hheads]. apply incl_appl, incl_refl.
        + eapply heads_more; [|exact Hh]. apply incl_appr, incl_refl. }
    destruct (V3.shouldIgnore ignores t (Path.child rel item)).
    + destruct (IH done structure Hrest Hdist) as [Hp Hh]; auto.
      { intros n Hn Hr. apply (Hfresh n Hn). now right. }
      split; [exact Hp|]. eapply heads_more; [|exact Hh].
      cbn [map fst]. apply incl_app; [apply incl_appl, incl_refl|].
      apply incl_appr. apply incl_tl, incl_refl.
    + destruct child as [data|sub].
      * destruct (Hblock [V3.fileItem (Path.child rel item) item (List.length data)
                            (List.length (filter (V3.is_type "file") structure))])
          as [Hp Hh].
        { cbn [map]. constructor; [intros []|constructor]. }
        { constructor; [|constructor]. exists item.
          split; [now left|]. split; [exact Hok|]. apply headed_self. }
        destruct (IH (done ++ [item])%list _ Hrest Hdist Hfresh' Hp Hh) as [Hp' Hh'].
        split; [exact Hp'|]. eapply heads_more; [exact Hmore | exact Hh'].
      * destruct (Hchild (Path.child rel item)) as [Hsubpre Hsubheads].
        rewrite <- app_assoc.
        destruct (Hblock ([V3.directoryItem (Path.child rel item) item]
                            ++ V3.readFolderStructure ignores t
                                 (Path.child rel item) (Fs.Dir sub))%list)
          as [Hp Hh].
        { cbn [List.app map]. constructor; [|exact Hsubpre].
          intros Hd. apply in_map_iff in Hd as (d & Hsame & Hd).
          rewrite Forall_forall in Hsubheads.
          destruct (Hsubheads _ Hd) as (name & _ & tail & Hp & _).
          rewrite Hsame in Hp. change (itemPath _) with (Path.child rel item) in Hp.
          rewrite (child_of_nonempty _ name (child_nonempty rel item Hne)) in Hp.
          apply (f_equal String.length) in Hp.
          repeat (rewrite length_append in Hp; cbn in Hp). lia. }
        { cbn [List.app]. constructor.
          - exists item. split; [now left|]. split; [exact Hok|].
            apply headed_self.
          - eapply Forall_impl; [|exact Hsubheads].
            intros x (name & Hname & Hx). exists item.
            split; [now left|]. split; [exact Hok|].
            eapply headed_deeper; eassumption. }
        destruct (IH (done ++ [item])%list _ Hrest Hdist Hfresh' Hp Hh) as [Hp' Hh'].
        split; [exact Hp'|]. eapply heads_more; [exact Hmore | exact Hh'].
Qed.

Lemma readFolderStructure_nodup ignores t n :
  listing_ok n = true ->
  forall rel,
    NoDup (map itemPath (V3.readFolderStructure ignores t rel n))
    /\ Forall (fun x => exists name, name_ok name = true
                        /\ headed rel name (itemPath x))
              (V3.readFolderStructure ignores t rel n).
Proof.
  induction n as [data|entries IH] using node_rect'; intros Hok rel.
  - split; constructor.
  - rewrite readFolderStructure_dir.
    cbn [listing_ok] in Hok. apply andb_prop in Hok as [Hdist Hall].
    rewrite forallb_forall in Hall.
    destruct (walkLoop_nodup ignores t rel entries) with
      (items := entries) (done := @nil string) (structure := @nil Json.value)
      as [Hp Hh].
    + rewrite Forall_forall in IH |- *. intros e He.
      specialize (Hall e He). apply andb_prop in Hall as [Hn Hl].
      split; [exact Hn|]. intros rel'. apply IH; assumption.
    + apply incl_refl.
    + exact Hdist.
    + intros n [].
    + constructor.
    + constructor.
    + split; [exact Hp|]. eapply Forall_impl; [|exact Hh].
      intros x (name & _ & Hname & Hx). now exists name.
Qed.

(** X7.  In a folder whose listings are proper, no relative path is
    listed twice by [readFolderStructure]. *)
Theorem walk_paths_distinct
    (ignores : list string -> string -> bool) (t : FolderSnap)
    (root : Fs.node) :
  listing_ok root = true ->
  NoDup (map itemPath (V3.readFolderStructure ignores t "" root)).
Proof.
  intros Hok. exact (proj1 (readFolderStructure_nodup ignores t root Hok "")).
Qed.

Lemma walk_paths_distinct_witness :
  listing_ok twinProject = true
  /\ NoDup (map itemPath
              (V3.readFolderStructure Ignore.ignores
                 (constructor defaultOptions) "" twinProject)).
Proof.
  split; [reflexivity|].
  apply (walk_paths_distinct Ignore.ignores (constructor defaultOptions)
           twinProject).
  reflexivity.
Defined.

(* ================================================================== *)
(** * Names of the sidecar files *)

Lemma safe_name_append a b :
  safe_name (a ++ b) = safe_name a && safe_name b.
Proof. unfold safe_name. rewrite chars_append. apply forallb_app. Qed.

Lemma sanitize_char_safe c : safe_name (V3.sanitize_char c) = true.
Proof.
  unfold V3.sanitize_char.
  match goal with
  | |- context [if ?b then String c "" else _] => destruct b eqn:Hsafe
  end.
  - unfold safe_name. cbn. unfold safe_char. now rewrite Hsafe.
  - repeat match goal with
           | |- context [if ?b then _ else _] => destruct b
           end; reflexivity.
Qed.

Lemma sanitized_safe cs :
  safe_name (String.concat "" (map V3.sanitize_char cs)) = true.
Proof.
  induction cs as [|c [|c' rest] IH].
  - reflexivity.
  - cbn. apply sanitize_char_safe.
  - change (safe_name (V3.sanitize_char c ++ ""
                       ++ String.concat "" (map V3.sanitize_char (c' :: rest)))
            = true).
    cbn [append]. rewrite safe_name_append, sanitize_char_safe. exact IH.
Qed.

Lemma string_of_uint_safe d : safe_name (NilEmpty.string_of_uint d) = true.
Proof. induction d; cbn; try reflexivity; exact IHd. Qed.

Lemma of_nat_num_safe n : safe_name (Js.of_Z (Z.of_nat n)) = true.
Proof.
  unfold Js.of_Z. destruct (Z.of_nat n) as [|p|p] eqn:E; [reflexivity| |lia].
  unfold Z.to_int, NilZero.string_of_int, NilZero.string_of_uint.
  destruct (Pos.to_uint p) eqn:Ep; try reflexivity;
    rewrite <- Ep; apply string_of_uint_safe.
Qed.

Lemma safe_slash_free s : safe_name s = true -> slash_free s = true.
Proof.
  unfold safe_name. induction s as [|c s IH]; cbn; [reflexivity|].
  intros H. apply andb_prop in H as [Hc Hs]. rewrite (IH Hs), andb_true_r.
  destruct (Ascii.eqb c "/") eqn:E; [|reflexivity].
  apply Ascii.eqb_eq in E. subst c. discriminate Hc.
Qed.

(** X8.  The name [generateContentFilename] gives to a sidecar file, for
    any path and any index, consists of letters, digits, dots, underscores
    and hyphens only; it holds no separator and begins with [content_], so
    it names one entry of the content folder. *)
Theorem sidecar_name_is_one_safe_component (filePath : string) (index : nat) :
  let name := V3.generateContentFilename filePath (Some (Json.nat_num index)) in
  safe_name name = true
  /\ slash_free name = true
  /\ Js.startsWith "content_" name = true.
Proof.
  cbv zeta.
  assert (H : safe_name (V3.generateContentFilename filePath
                           (Some (Json.nat_num index))) = true).
  { unfold V3.generateContentFilename, Json.nat_num, V3.display, Json.print_num.
    cbn [Z.eqb].
    rewrite !safe_name_append, sanitized_safe, of_nat_num_safe. reflexivity. }
  split; [exact H|]. split; [now apply safe_slash_free | apply prefix_append].
Qed.

(* ================================================================== *)
(** * Sources that are no folder *)

(** X9.  When the source path is no directory, [folderToText] returns a
    failure that says so (the path does not exist, or it is not a
    directory) and leaves the file system and the instance as they were: no
    rule is loaded and nothing is written. *)
Theorem folderToText_needs_a_directory
    (ignores : list string -> string -> bool) (now : string)
    (folderPath outputPath : string) (st : State) :
  (forall entries,
      Fs.lookup (Path.segments folderPath) (disk st) <> Some (Fs.Dir entries)) ->
  V3.folderToText ignores now folderPath outputPath st
  = (Return
       (failure
          (Error ((match Fs.lookup (Path.segments folderPath) (disk st) with
                   | None => "Source folder does not exist: "
                   | Some _ => "Source path is not a directory: "
                   end) ++ folderPath))), st).
Proof.
  intros Hno. unfold V3.folderToText, try_catch, bind at 1.
  rewrite existsSync_spec.
  destruct (Fs.lookup (Path.segments folderPath) (disk st)) as [[data|entries]|]
    eqn:Hl.
  - cbn [negb when]. unfold bind at 1. cbn [ret]. unfold bind at 1.
    unfold isDirectory, bind at 1, get_disk. rewrite Hl. reflexivity.
  - now destruct (Hno entries).
  - reflexivity.
Qed.

Lemma folderToText_needs_a_directory_witness :
  V3.folderToText Ignore.ignores sampleClock "broken.snap" "out.snap"
                  (freshOn projectDisk)
  = (Return (failure (Error "Source path is not a directory: broken.snap")),
     freshOn projectDisk).
Proof.
  apply (folderToText_needs_a_directory Ignore.ignores sampleClock
           "broken.snap" "out.snap" (freshOn projectDisk)).
  intros entries. vm_compute. discriminate.
Defined.

(* ================================================================== *)
(** * What a restoration leaves in place *)

Lemma find_replace_other name name' c' entries :
  String.eqb name' name = false ->
  Fs.find name' (Fs.replace name c' entries) = Fs.find name' entries.
Proof.
  intros Hne. induction entries as [|[n x] rest IH]; cbn; [reflexivity|].
  destruct (String.eqb name n) eqn:E; cbn.
  - apply String.eqb_eq in E. subst n. now rewrite Hne.
  - now rewrite IH.
Qed.

Lemma find_app_old name entries more c :
  Fs.find name entries = Some c -> Fs.find name (entries ++ more) = Some c.
Proof.
  induction entries as [|[n x] rest IH]; cbn; [discriminate|].
  destruct (String.eqb name n); auto.
Qed.

Lemma extends_refl n : extends n n.
Proof. intros segs x H. now exists x. Qed.

Lemma extends_replace s c c' entries :
  Fs.find s entries = Some c ->
  extends c c' ->
  extends (Fs.Dir entries) (Fs.Dir (Fs.replace s c' entries)).
Proof.
  intros Hf Hc [|s' rest'] x; cbn.
  - intros H. inversion H. now eexists.
  - destruct (String.eqb s' s) eqn:E.
    + apply String.eqb_eq in E. subst s'. rewrite Hf.
      rewrite (find_replace _ _ _ _ Hf). apply Hc.
    + rewrite (find_replace_other _ _ _ _ E).
      destruct (Fs.find s' entries); [|discriminate].
      intros H. now exists x.
Qed.

Lemma extends_append entries more :
  extends (Fs.Dir entries) (Fs.Dir (entries ++ more)).
Proof.
  intros [|s' rest'] x; cbn.
  - intros H. inversion H. now eexists.
  - destruct (Fs.find s' entries) as [c|] eqn:Hf; [|discriminate].
    rewrite (find_app_old _ _ more _ Hf). intros H. now exists x.
Qed.

Lemma write_extends segs data :
  forall n n', Fs.write segs data n = inr n' -> extends n n'.
Proof.
  induction segs as [|s rest IH]; intros n n'; cbn.
  - destruct n; [|discriminate]. intros H. inversion H.
    intros [|s' r'] x; cbn; [|discriminate].
    intros Hx. inversion Hx. now eexists.
  - destruct n as [old|entries]; [discriminate|].
    destruct (Fs.find s entries) as [c|] eqn:Hf.
    + destruct (Fs.write rest data c) as [e|c'] eqn:Hw; [discriminate|].
      intros H. inversion H. eapply extends_replace; eauto.
    + destruct rest; [|discriminate].
      intros H. inversion H. apply extends_append.
Qed.

Lemma mkdirp_extends segs :
  forall n n', Fs.mkdirp segs n = inr n' -> extends n n'.
Proof.
  induction segs as [|s rest IH]; intros n n'; cbn.
  - destruct n; [discriminate|]. intros H. inversion H. apply extends_refl.
  - destruct n as [old|entries]; [discriminate|].
    destruct (Fs.find s entries) as [c|] eqn:Hf.
    + destruct (Fs.mkdirp rest c) as [e|c'] eqn:Hw; [discriminate|].
      intros H. inversion H. eapply extends_replace; eauto.
    + destruct (Fs.mkdirp rest (Fs.Dir [])) as [e|c'] eqn:Hw; [discriminate|].
      intros H. inversion H. apply extends_append.
Qed.

Lemma nothing_lost_refl st : nothing_lost st st.
Proof. split; [reflexivity|]. intros segs x H. now exists x. Qed.

Lemma nothing_lost_trans a b c :
  nothing_lost a b -> nothing_lost b c -> nothing_lost a c.
Proof.
  intros [Ht1 H1] [Ht2 H2]. split; [congruence|].
  intros segs x Hx. destruct (H1 _ _ Hx) as (y & Hy & Hk).
  destruct (H2 _ _ Hy) as (z & Hz & Hk'). exists z. split; [exact Hz|congruence].
Qed.

Lemma nothing_lost_writeFileSync p data :
  preserves nothing_lost (writeFileSync p data).
Proof.
  intros st. unfold writeFileSync, bind, get_disk, put_disk, throw.
  destruct (Fs.write _ _ _) as [e|d'] eqn:Hw; cbn.
  - apply nothing_lost_refl.
  - split; [reflexivity|]. cbn. eapply write_extends; eassumption.
Qed.

Lemma nothing_lost_mkdirSync p : preserves nothing_lost (mkdirSync p).
Proof.
  intros st. unfold mkdirSync, bind, get_disk, put_disk, throw.
  destruct (Fs.mkdirp _ _) as [e|d'] eqn:Hw; cbn.
  - apply nothing_lost_refl.
  - split; [reflexivity|]. cbn. eapply mkdirp_extends; eassumption.
Qed.

Ltac grows_step :=
  first
    [ preserves_step nothing_lost_refl nothing_lost_trans
    | lazymatch goal with
      | |- preserves _ (writeFileSync _ _) => apply nothing_lost_writeFileSync
      | |- preserves _ (writeTextSync _ _) => apply nothing_lost_writeFileSync
      | |- preserves _ (mkdirSync _) => apply nothing_lost_mkdirSync
      | |- preserves _ (V3.ensureDir _) => unfold V3.ensureDir
      | |- preserves _ (V3.restoreDirectory _ _) => unfold V3.restoreDirectory
      | |- preserves _ (V3.restoreFileV3 _ _ _) => unfold V3.restoreFileV3
      | |- preserves _ (V3.restoreFileInline _ _) => unfold V3.restoreFileInline
      | |- preserves _ (V3.inlineContent _) => unfold V3.inlineContent
      | |- preserves _ (V3.unpackV3Snap _ _ _) => unfold V3.unpackV3Snap
      | |- preserves _ (V3.unpackLegacySnap _ _) => unfold V3.unpackLegacySnap
      | |- preserves _ (Legacy.restoreDirectory _ _) => unfold Legacy.restoreDirectory
      | |- preserves _ (Legacy.restoreFile _ _) => unfold Legacy.restoreFile
      end ].

(** X11.  A restoration takes nothing away.  Whatever the archive holds,
    after [textToFolder] of the v3, the v2 or the legacy unit every path
    that led to a file still leads to a file and every path that led to a
    directory still leads to a directory, and the instance with its rules
    is untouched. *)
Theorem textToFolder_loses_nothing (snapFilePath outputFolder : string)
    (st : State) :
  nothing_lost st (snd (V3.textToFolder snapFilePath outputFolder st))
  /\ nothing_lost st (snd (V2.textToFolder snapFilePath outputFolder st))
  /\ nothing_lost st (snd (Legacy.textToFolder snapFilePath outputFolder st)).
Proof.
  split; [|split].
  - assert (H : preserves nothing_lost (V3.textToFolder snapFilePath outputFolder)).
    { unfold V3.textToFolder. repeat grows_step. }
    apply H.
  - assert (H : preserves nothing_lost (V2.textToFolder snapFilePath outputFolder)).
    { unfold V2.textToFolder. repeat grows_step. }
    apply H.
  - assert (H : preserves nothing_lost (Legacy.textToFolder snapFilePath outputFolder)).
    { unfold Legacy.textToFolder. repeat grows_step. }
    apply H.
Qed.

(* ================================================================== *)
(** * Archives of the legacy writer *)

Lemma bind_returns {A B} (m : M A) (k : A -> M B) st b st' :
  bind m k st = (Return b, st') ->
  exists a st1, m st = (Return a, st1) /\ k a st1 = (Return b, st').
Proof.
  unfold bind. destruct (m st) as [[a|e] st1]; [|discriminate].
  intros H. now exists a, st1.
Qed.







(* ================================================================== *)
(** * The temporary folder of an upgrade *)

Lemma find_unlink s entries : Fs.find s (Fs.unlink s entries) = None.
Proof.
  unfold Fs.unlink. induction entries as [|[n x] rest IH]; cbn; [reflexivity|].
  destruct (String.eqb s n) eqn:E; cbn; [exact IH|]. now rewrite E.
Qed.

Lemma lookup_remove segs :
  segs <> [] -> forall n, Fs.lookup segs (Fs.remove segs n) = None.
Proof.
  induction segs as [|s rest IH]; intros Hne n; [congruence|].
  destruct n as [data|entries]; [reflexivity|].
  destruct rest as [|s' rest'].
  - cbn. now rewrite find_unlink.
  - cbn [Fs.remove].
    destruct (Fs.find s entries) as [c|] eqn:Hf.
    + cbn [Fs.lookup]. rewrite (find_replace _ _ _ _ Hf).
      apply IH. discriminate.
    + cbn [Fs.lookup]. now rewrite Hf.
Qed.

Lemma rmSync_gone p st :
  Path.segments p <> [] ->
  Fs.lookup (Path.segments p) (disk (snd (rmSync p st))) = None.
Proof. intros H. cbn. now apply lookup_remove. Qed.

Lemma readTextSync_reads_only p st : snd (readTextSync p st) = st.
Proof.
  assert (H : preserves (fun a b => a = b) (readTextSync p))
    by (repeat preserves_step (@eq_refl State) eq_state_trans).
  symmetry. apply H.
Qed.

(** X13.  [upgradeLegacySnap] leaves no temporary folder behind: if
    nothing stood at the path of its [.temp_upgrade_] folder before the
    call, nothing stands there after it, whether the upgrade succeeded,
    failed in the archive, or failed while the files were being restored. *)
Theorem upgrade_leaves_no_temporary_folder
    (ignores : list string -> string -> bool) (now nowMillis : string)
    (legacySnapPath : string) (outputPath : option string) (st : State) :
  Fs.lookup (Path.segments (V3.upgradeTempDir nowMillis legacySnapPath))
            (disk st) = None ->
  Fs.lookup (Path.segments (V3.upgradeTempDir nowMillis legacySnapPath))
            (disk (snd (V3.upgradeLegacySnap ignores now nowMillis
                          legacySnapPath outputPath st))) = None.
Proof.
  intros Hnone.
  set (tempDir := V3.upgradeTempDir nowMillis legacySnapPath) in *.
  assert (Hne : Path.segments tempDir <> []).
  { intros E. rewrite E in Hnone. discriminate Hnone. }
  unfold V3.upgradeLegacySnap. fold tempDir.
  unfold try_catch at 1.
  match goal with
  | |- context [match ?b st with _ => _ end] =>
      assert (Hbody : Fs.lookup (Path.segments tempDir) (disk (snd (b st))) = None);
      [|destruct (b st) as [[r|e] st']; exact Hbody]
  end.
  unfold bind at 1.
  pose proof (readTextSync_reads_only legacySnapPath st) as Hs1.
  destruct (readTextSync legacySnapPath st) as [[textContent|e] s1];
    cbn [snd] in Hs1; subst s1; [|exact Hnone].
  unfold bind at 1.
  destruct (V3.extractJson textContent) as [j|]; [|exact Hnone].
  unfold ret at 1. unfold bind at 1. unfold JSON_parse.
  destruct (Json.parse j) as [data|]; [|exact Hnone].
  unfold ret at 1. unfold bind at 1.
  unfold mkdirSync at 1. unfold bind at 1, get_disk at 1.
  destruct (Fs.mkdirp (Path.segments tempDir) (disk st)) as [e|d'];
    [exact Hnone|].
  unfold put_disk at 1.
  match goal with
  | |- context [try_catch ?b ?h ?s] => generalize s; intros s2
  end.
  unfold try_catch.
  match goal with
  | |- context [match ?b s2 with _ => _ end] =>
      destruct (b s2) as [[r|e] s3] eqn:Hinner
  end.
  - do 4 (apply bind_returns in Hinner as (? & ? & _ & Hinner)).
    apply bind_returns in Hinner as (? & s4 & Hrm & Hinner).
    inversion Hinner. subst s4. clear Hinner.
    inversion Hrm. cbn. now apply lookup_remove.
  - unfold bind at 1. rewrite existsSync_spec.
    destruct (Fs.lookup (Path.segments tempDir) (disk s3)) eqn:Hl.
    + cbn [when]. unfold bind at 1. cbn. now apply lookup_remove.
    + cbn. exact Hl.
Qed.

Lemma upgrade_leaves_no_temporary_folder_witness :
  Fs.lookup [".temp_upgrade_1700000000000"] (disk legacyArchived) = None
  /\ Fs.lookup [".temp_upgrade_1700000000000"]
       (disk (snd (V3.upgradeLegacySnap Ignore.ignores sampleClock sampleMillis
                     "proj.snap" None legacyArchived))) = None.
Proof.
  split; [vm_compute; reflexivity|].
  apply (upgrade_leaves_no_temporary_folder Ignore.ignores sampleClock
           sampleMillis "proj.snap" None legacyArchived).
  vm_compute. reflexivity.
Defined.

(* ================================================================== *)
(** * Bytes of the sidecar files *)

Lemma find_app_none name entries s c :
  Fs.find name entries = None ->
  Fs.find name (entries ++ [(s, c)])
  = if String.eqb name s then Some c else None.
Proof.
  induction entries as [|[n x] rest IH]; cbn; [reflexivity|].
  destruct (String.eqb name n); [discriminate | exact IH].
Qed.

Lemma write_fails_for_all_data segs data data' :
  forall n e, Fs.write segs data n = inl e -> Fs.write segs data' n = inl e.
Proof.
  induction segs as [|s rest IH]; intros n e; cbn.
  - destruct n; [discriminate | auto].
  - destruct n as [old|entries]; [auto|].
    destruct (Fs.find s entries) as [c|].
    + destruct (Fs.write rest data c) as [e'|c'] eqn:Hw; [|discriminate].
      rewrite (IH _ _ Hw). auto.
    + destruct rest; [discriminate | auto].
Qed.

Lemma mkdirp_same_files segs :
  forall n n',
    Fs.mkdirp segs n = inr n' ->
    forall segs' d,
      Fs.lookup segs' n' = Some (Fs.File d)
      <-> Fs.lookup segs' n = Some (Fs.File d).
Proof.
  induction segs as [|s rest IH]; intros n n'; cbn.
  - destruct n; [discriminate|]. intros H. inversion H. tauto.
  - destruct n as [old|entries]; [discriminate|].
    destruct (Fs.find s entries) as [c|] eqn:Hf.
    + destruct (Fs.mkdirp rest c) as [e|c'] eqn:Hm; [discriminate|].
      intros H. inversion H. intros [|s' r'] d; cbn.
      * split; discriminate.
      * destruct (String.eqb s' s) eqn:E.
        -- apply String.eqb_eq in E. subst s'.
           rewrite (find_replace _ _ _ _ Hf), Hf. apply (IH _ _ Hm).
        -- rewrite (find_replace_other _ _ _ _ E). tauto.
    + destruct (Fs.mkdirp rest (Fs.Dir [])) as [e|c'] eqn:Hm; [discriminate|].
      intros H. inversion H. intros [|s' r'] d; cbn.
      * split; discriminate.
      * destruct (Fs.find s' entries) as [x|] eqn:Hx.
        -- rewrite (find_app_old _ _ _ _ Hx). tauto.
        -- rewrite (find_app_none _ _ _ _ Hx).
           destruct (String.eqb s' s); [|tauto].
           rewrite (IH _ _ Hm). destruct r'; cbn; split; discriminate.
Qed.

Lemma readFileSync_file p st data :
  Fs.lookup (Path.segments p) (disk st) = Some (Fs.File data) ->
  readFileSync p st = (Return data, st).
Proof. intros H. unfold readFileSync, bind, get_disk. now rewrite H. Qed.

(** X15.  The writer copies bytes as they are.  When the loop over the
    file items returns for a file item whose source is a file, the sidecar
    file of the item holds exactly the bytes of the source, whether they
    are text or not, and the item names that sidecar file. *)
Theorem writeContent_copies_bytes
    (folderPath contentDir : string) (file file' : Json.value)
    (st st' : State) (data : Buffer) :
  V3.is_type "file" file = true ->
  Fs.lookup (Path.segments (Path.join folderPath (itemPath file))) (disk st)
  = Some (Fs.File data) ->
  V3.writeContent folderPath contentDir file st = (Return file', st') ->
  Fs.lookup (Path.segments (Path.join contentDir (sidecarName file))) (disk st')
  = Some (Fs.File data)
  /\ V3.field "contentFile" file' = Some (Json.Str (sidecarName file)).
Proof.
  intros Hfile Hsrc. unfold V3.writeContent. rewrite Hfile.
  fold (itemPath file). fold (sidecarName file).
  destruct file as [| | | | |fields]; try discriminate Hfile.
  unfold try_catch, bind at 1. rewrite (readFileSync_file _ _ _ Hsrc).
  unfold bind at 1, writeFileSync at 1, bind at 1, get_disk at 1.
  destruct (Fs.write _ data (disk st)) as [e|d'] eqn:Hw.
  - unfold throw at 1, bind at 1, writeTextSync, writeFileSync, bind at 1,
      get_disk at 1.
    rewrite (write_fails_for_all_data _ _ (Utf8.fromString "") _ _ Hw).
    discriminate.
  - unfold put_disk at 1, ret at 1. intros H. inversion H. subst file' st'.
    cbn [disk]. split.
    + eapply write_lookup. exact Hw.
    + cbn [V3.field]. apply lookup_assign_same.
Qed.

Lemma writeContent_copies_bytes_witness :
  exists file' st',
    V3.writeContent "proj" "content" (V3.fileItem "src/a.txt" "a.txt" 5 0)
                    (freshOn stagingDisk) = (Return file', st')
    /\ Fs.lookup ["content"; "content_0_src_a.txt.bin"] (disk st')
       = Some (Fs.File (bytes "hello"))
    /\ V3.field "contentFile" file' = Some (Json.Str "content_0_src_a.txt.bin").
Proof.
  do 2 eexists. split; [vm_compute; reflexivity|].
  eapply (writeContent_copies_bytes "proj" "content"
            (V3.fileItem "src/a.txt" "a.txt" 5 0) _ (freshOn stagingDisk) _
            (bytes "hello")).
  - reflexivity.
  - vm_compute. reflexivity.
  - vm_compute. reflexivity.
Defined.

(** X16.  The reader copies bytes as they are.  For a file item whose
    sidecar file exists, the restored path holds after [restoreFileV3]
    either exactly the bytes of the sidecar file or the file it held
    before (when the write failed): nothing else is ever written there. *)
Theorem restoreFileV3_writes_sidecar_bytes
    (snapDir outputFolder : string) (file : Json.value) (st : State)
    (rel name : string) (data data' : Buffer) :
  V3.field "path" file = Some (Json.Str rel) ->
  V3.field "contentFile" file = Some (Json.Str name) ->
  name <> "" ->
  Fs.lookup (Path.segments (Path.join (Path.join snapDir "content") name))
            (disk st) = Some (Fs.File data) ->
  Fs.lookup (Path.segments (Path.join outputFolder rel))
            (disk (snd (V3.restoreFileV3 snapDir outputFolder file st)))
  = Some (Fs.File data') ->
  data' = data
  \/ Fs.lookup (Path.segments (Path.join outputFolder rel)) (disk st)
     = Some (Fs.File data').
Proof.
  intros Hpath Hcontent Hname Hside.
  destruct file as [| | | | |fields]; try discriminate Hpath.
  cbn [V3.field] in Hpath, Hcontent.
  unfold V3.restoreFileV3, bind at 1. cbn [prop]. rewrite Hpath.
  unfold ret at 1, bind at 1. cbn [path_arg]. unfold ret at 1.
  set (target := Path.segments (Path.join outputFolder rel)).
  unfold try_catch, bind at 1.
  assert (Hensure :
            forall p,
              (exists e, V3.ensureDir p st = (Throw e, st))
              \/ exists st1,
                  V3.ensureDir p st = (Return tt, st1)
                  /\ forall segs d,
                      Fs.lookup segs (disk st1) = Some (Fs.File d)
                      <-> Fs.lookup segs (disk st) = Some (Fs.File d)).
  { intros p. unfold V3.ensureDir, bind. rewrite existsSync_spec.
    destruct (Fs.lookup (Path.segments p) (disk st)); cbn [negb when].
    - right. exists st. split; [reflexivity | tauto].
    - unfold mkdirSync, bind, get_disk.
      destruct (Fs.mkdirp (Path.segments p) (disk st)) as [e|d'] eqn:Hm.
      + left. eexists. reflexivity.
      + right. eexists. split; [reflexivity|]. cbn [disk].
        apply (mkdirp_same_files _ _ _ Hm). }
  destruct (Hensure (Path.dirname (Path.join outputFolder rel)))
    as [[e He] | (st1 & He & Hsame)]; rewrite He.
  - cbn. intros H. now right.
  - unfold bind at 1. cbn [prop]. rewrite Hcontent. unfold ret at 1.
    cbn [Json.truthy_opt Json.truthy].
    apply String.eqb_neq in Hname. rewrite Hname. cbn [negb path_arg].
    unfold bind at 1, ret at 1, bind at 1.
    rewrite existsSync_spec.
    apply Hsame in Hside. rewrite Hside.
    unfold bind at 1. rewrite (readFileSync_file _ _ _ Hside).
    unfold writeFileSync, bind at 1, get_disk at 1.
    fold target.
    destruct (Fs.write target data (disk st1)) as [e|d'] eqn:Hw.
    + cbn. intros H. right. now apply Hsame.
    + cbn. intros H. left.
      rewrite (write_lookup _ _ _ _ Hw) in H. now inversion H.
Qed.

Lemma restoreFileV3_writes_sidecar_bytes_witness :
  Fs.lookup ["restored"; "a"; "b"; "c"]
    (disk (snd (V3.restoreFileV3 "proj_snap" "restored" twinItem
                  (snd twinPacked))))
  = Some (Fs.File (bytes "second"))
  /\ (bytes "second" = bytes "second"
      \/ Fs.lookup (Path.segments (Path.join "restored" "a/b/c"))
                   (disk (snd twinPacked))
         = Some (Fs.File (bytes "second"))).
Proof.
  split; [vm_compute; reflexivity|].
  apply (restoreFileV3_writes_sidecar_bytes "proj_snap" "restored" twinItem
           (snd twinPacked) "a/b/c" "content_0_a_b_c.bin"
           (bytes "second") (bytes "second")).
  - reflexivity.
  - reflexivity.
  - discriminate.
  - vm_compute. reflexivity.
  - vm_compute. reflexivity.
Defined.

(* ================================================================== *)
(** * Entries that cannot be restored *)












(* ================================================================== *)
(** * What a pack reports and leaves *)

(** X17.  A pack and the statistics agree: when [folderToText] succeeds and
    [getFolderStats] returns for the same folder from the same state, the
    totals of files and of directories in the metadata of the pack are the
    counts the statistics give. *)
Theorem pack_totals_agree_with_stats
    (ignores : list string -> string -> bool) (now : string)
    (folderPath outputPath : string) (st st1 st2 : State)
    (r : SnapResult) (s : V3.FolderStats) :
  V3.folderToText ignores now folderPath outputPath st = (Return r, st1) ->
  success r = true ->
  V3.getFolderStats ignores folderPath st = (Return s, st2) ->
  exists metadata,
    stats r = Some metadata
    /\ V3.field "totalFiles" metadata = Some (Json.nat_num (V3.files s))
    /\ V3.field "totalDirectories" metadata
       = Some (Json.nat_num (V3.directories s)).
Proof.
  intros Hpack Hok Hstats.
  apply folderToText_returns in Hpack as (_ & entries & Hroot & Hr); [|exact Hok].
  apply getFolderStats_returns in Hstats as (-> & entries' & Hroot' & Hf & Hd).
  rewrite Hroot in Hroot'. inversion Hroot'. subst entries'.
  eexists. split; [exact Hr|].
  cbn -[V3.readFolderStructure withRules rulesAfterLoad] in Hf, Hd |- *.
  rewrite Hf, Hd. split; reflexivity.
Qed.

Lemma pack_totals_agree_with_stats_witness :
  exists metadata,
    stats (resultOf (fst twinPacked)) = Some metadata
    /\ V3.field "totalFiles" metadata = Some (Json.nat_num 2)
    /\ V3.field "totalDirectories" metadata = Some (Json.nat_num 3).
Proof.
  eapply (pack_totals_agree_with_stats Ignore.ignores sampleClock
            "proj" "proj.snap" (freshOn twinDisk) (snd twinPacked) _
            (resultOf (fst twinPacked))
            {| V3.files := 2; V3.directories := 3; V3.totalSize := 11 |}).
  - vm_compute. reflexivity.
  - vm_compute. reflexivity.
  - vm_compute. reflexivity.
Defined.



(* ================================================================== *)
(** * Validation and restoration *)

(** The first scrutinee of a [match] of [T] that is no [match] itself. *)
Ltac scrutinee T :=
  match T with
  | context [match ?x with _ => _ end] =>
      lazymatch x with
      | context [match _ with _ => _ end] => fail
      | _ => x
      end
  end.

(** Case analysis along the run recorded in [H]. *)
Ltac run_cases H :=
  repeat (cbn in H |- *;
          match type of H with
          | ?T => let x := scrutinee T in destruct x eqn:?
          end).

(** The same along the run in the goal, with what is known of it. *)
Ltac run_goal :=
  repeat (cbn;
          repeat match goal with
                 | Heq : ?x = _ |- context [?x] =>
                     tryif is_var x then fail else rewrite Heq
                 end;
          try match goal with
              | |- ?G => let x := scrutinee G in destruct x eqn:?
              end).

Ltac unfold_run :=
  unfold existsSync, isDirectory, readTextSync, readFileSync, JSON_parse,
    prop, path_arg, get_disk, when, is_string, try_catch, bind, ret, throw
    in *.

Opaque Json.parse Utf8.toString Path.segments Path.join Path.dirname
       Fs.lookup V3.extractJson Json.lookup String.eqb.

(** X3.  A file that [validateSnapFile] reports as invalid is never
    restored: [textToFolder] returns a failure for it and does not throw. *)
Theorem rejected_by_validate_is_not_restored
    (snapFilePath outputFolder : string) (st : State) (v : V3.Validation) :
  fst (V3.validateSnapFile snapFilePath st) = Return v ->
  V3.valid v = false ->
  exists r st',
    V3.textToFolder snapFilePath outputFolder st = (Return r, st')
    /\ success r = false.
Proof.
  intros H Hv.
  unfold V3.validateSnapFile, V3.textToFolder, V3.unpackV3Snap,
    V3.unpackLegacySnap in *.
  unfold_run. run_cases H.
  all: try (inversion H; subst v; discriminate Hv).
  all: clear H Hv; run_goal.
  all: do 2 eexists; split; reflexivity.
Qed.

(** X4.  In the v2 unit the two agree before anything is written: a file
    that [validateSnapFile] reports as invalid makes [textToFolder] fail
    with the file system and the instance untouched. *)
Theorem v2_rejected_by_validate_changes_nothing
    (snapFilePath outputFolder : string) (st : State) (v : V3.Validation) :
  fst (V2.validateSnapFile snapFilePath st) = Return v ->
  V3.valid v = false ->
  exists r,
    V2.textToFolder snapFilePath outputFolder st = (Return r, st)
    /\ success r = false.
Proof.
  intros H Hv.
  unfold V2.validateSnapFile, V2.textToFolder in *.
  unfold_run. run_cases H.
  all: try (inversion H; subst v; discriminate Hv).
  all: clear H Hv; run_goal.
  all: eexists; split; reflexivity.
Qed.

Transparent Json.parse Utf8.toString Path.segments Path.join Path.dirname
            Fs.lookup V3.extractJson Json.lookup String.eqb.

Lemma rejected_by_validate_is_not_restored_witness :
  exists r st',
    V3.textToFolder "broken.snap" "restored" (freshOn projectDisk)
    = (Return r, st')
    /\ success r = false.
Proof.
  apply (rejected_by_validate_is_not_restored "broken.snap" "restored"
           (freshOn projectDisk) (V3.invalid "Invalid JSON format")).
  - vm_compute. reflexivity.
  - reflexivity.
Defined.

Lemma v2_rejected_by_validate_changes_nothing_witness :
  exists r,
    V2.textToFolder "broken.snap" "restored" (freshOn projectDisk)
    = (Return r, freshOn projectDisk)
    /\ success r = false.
Proof.
  apply (v2_rejected_by_validate_changes_nothing "broken.snap" "restored"
           (freshOn projectDisk) (V3.invalid "Invalid JSON format")).
  - vm_compute. reflexivity.
  - reflexivity.
Defined.
